(** * Hugging Face metadata repair for Parquet files

    A shallow embedding of the three scripts

    - [scripts/fix_parquet_hf_metadata.py]              (module [Fix])
    - [scripts/convert_parquet_hf_list_to_sequence.py]  (module [Convert])
    - [scripts/normalize_parquet_hf_schema_meta.py]     (module [Normalize])

    together with the properties of the metadata reconciliation they
    implement: the [List] to [Sequence] tag rewrite, the choice of the
    authoritative metadata slot, the needs-write decision, and the
    write-back to the file system.

    Conventions of the embedding.

    - A Python [str] is the list of its code points, [bytes] is a list of
      [byte]; [str.encode("utf-8")] is written out and fails on a lone
      surrogate, as Python's strict encoder does.
    - A value returned by [json.loads] is a [json] tree.  A [dict] is the
      list of its items in insertion order; lookups and item assignment
      act on the first item with the key, so they agree with Python on
      every dict (whose keys are unique).  Python's [None] is [JNull].
      A [float] is carried by the text [json.dumps] writes for it, its
      [repr] when it is finite.
    - [json.loads] itself (with the UTF-8 decoding in front of it) is a
      parameter of the development: [None] stands for any exception it
      raises.  [json.dumps(_, ensure_ascii=False)] is written out.
    - A function that can raise returns a [result]; a function with effects
      on the file system passes the file system explicitly. *)

From Stdlib Require Import ZArith NArith Strings.String Strings.Ascii Strings.Byte.
From Stdlib Require Import Numbers.DecimalString.
From stdpp Require Import base option list gmap strings.

Set Warnings "-register-all".

(** ** Python values *)

Abbreviation str := (list N).
Abbreviation bytes := (list byte).

(** A literal of the source, [s], all of whose characters are ASCII. *)
Definition py_str (s : string) : str := N_of_ascii <$> list_ascii_of_string s.

(** A literal of the source, [b"..."]. *)
Definition py_bytes (s : string) : bytes := list_byte_of_string s.

Inductive exn :=
| AttributeError
| ValueError
| UnicodeEncodeError
| ArrowInvalid
| OSError
| SameFileError.

Inductive result (A : Type) :=
| Ok (a : A)
| Raise (e : exn).
Arguments Ok {A} a.
Arguments Raise {A} e.

#[global] Instance result_ret : MRet result := @Ok.
#[global] Instance result_bind : MBind result :=
  λ A B k r,
    match r with
    | Ok a => k a
    | Raise e => Raise e
    end.

(** ** JSON values, as [json.loads] builds them *)

Inductive json :=
| JNull
| JBool (b : bool)
| JInt (z : Z)
| JFloat (repr : str)
| JString (s : str)
| JArray (l : list json)
| JObject (d : list (str * json)).

Abbreviation dict := (list (str * json)).

(** [d.get(k)] *)
Fixpoint dict_get (k : str) (d : dict) : option json :=
  match d with
  | [] => None
  | (k', v) :: d' => if decide (k' = k) then Some v else dict_get k d'
  end.

(** [d[k] = v]: an existing key keeps its place, a new one goes last. *)
Fixpoint dict_set (k : str) (v : json) (d : dict) : dict :=
  match d with
  | [] => [(k, v)]
  | (k', v') :: d' =>
      if decide (k' = k) then (k', v) :: d' else (k', v') :: dict_set k v d'
  end.

(** [d.setdefault(k, default)]: the value now under [k], and the dict. *)
Definition dict_setdefault (k : str) (default : json) (d : dict) : json * dict :=
  match dict_get k d with
  | Some v => (v, d)
  | None => (default, dict_set k default d)
  end.

(** [list(d.keys())] *)
Definition dict_keys (d : dict) : list str := fst <$> d.

(** Truth value of a Python object, as [or] and [if] test it. *)
Definition truthy (v : json) : bool :=
  match v with
  | JNull => false
  | JBool b => b
  | JInt z => negb (z =? 0)%Z
  | JFloat r => negb (bool_decide (r = py_str "0.0") || bool_decide (r = py_str "-0.0"))
  | JString s => negb (bool_decide (s = []))
  | JArray l => negb (bool_decide (length l = 0))
  | JObject d => negb (bool_decide (length d = 0))
  end.

Definition is_None (v : json) : bool :=
  match v with
  | JNull => true
  | _ => false
  end.

(** [isinstance(spec, dict) and spec.get("_type") == "List"] *)
Definition is_List_spec (spec : json) : bool :=
  match spec with
  | JObject s =>
      match dict_get (py_str "_type") s with
      | Some (JString t) => bool_decide (t = py_str "List")
      | _ => false
      end
  | _ => false
  end.

(** [spec["_type"] = "Sequence"], for a [spec] that is a dict. *)
Definition retag (spec : json) : json :=
  match spec with
  | JObject s => JObject (dict_set (py_str "_type") (JString (py_str "Sequence")) s)
  | _ => spec
  end.

(** An entry of the feature map that is a structured record whose [_type]
    field is the string [List]. *)
Definition tagged_List (spec : json) : Prop :=
  ∃ s, spec = JObject s
       ∧ dict_get (py_str "_type") s = Some (JString (py_str "List")).

#[global] Instance tagged_List_dec spec : Decision (tagged_List spec).
Proof.
  refine (cast_if (decide (is_List_spec spec = true)));
    unfold tagged_List, is_List_spec in *.
  - destruct spec as [| | | | |l|s]; try discriminate.
    exists s. split; [reflexivity|].
    destruct (dict_get (py_str "_type") s) as [[| | | |t| |]|]; try discriminate.
    apply bool_decide_eq_true in e. by rewrite e.
  - intros (s & -> & Hs). apply n. rewrite Hs. by apply bool_decide_eq_true.
Defined.

(** [spec'] is the record [spec] with [_type] set to [Sequence]: the same
    keys in the same order, and the same value under every other key. *)
Definition retagged (spec spec' : json) : Prop :=
  ∃ s s', spec = JObject s ∧ spec' = JObject s'
          ∧ dict_keys s' = dict_keys s
          ∧ dict_get (py_str "_type") s' = Some (JString (py_str "Sequence"))
          ∧ ∀ k, k ≠ py_str "_type" → dict_get k s' = dict_get k s.

(** [hf.setdefault("info", {}).setdefault("features", feats)] *)
Definition ensure_structure (feats : json) (d : dict) : result dict :=
  let '(info, d1) := dict_setdefault (py_str "info") (JObject []) d in
  match info with
  | JObject i =>
      let '(_, i1) := dict_setdefault (py_str "features") feats i in
      Ok (dict_set (py_str "info") (JObject i1) d1)
  | _ => Raise AttributeError
  end.

(** ** [json.dumps(v, ensure_ascii=False)] and [str.encode("utf-8")] *)

(** [py_encode_basestring]: only the quote, the backslash and the control
    characters below U+0020 are escaped; every other code point, ASCII or
    not, is copied. *)
Definition hex_digit (n : N) : N :=
  if (n <? 10)%N then (48 + n)%N else (87 + n)%N.

Definition escape_char (c : N) : str :=
  if bool_decide (c = 34%N) then [92; 34]%N
  else if bool_decide (c = 92%N) then [92; 92]%N
  else if bool_decide (c = 8%N) then [92; 98]%N
  else if bool_decide (c = 12%N) then [92; 102]%N
  else if bool_decide (c = 10%N) then [92; 110]%N
  else if bool_decide (c = 13%N) then [92; 114]%N
  else if bool_decide (c = 9%N) then [92; 116]%N
  else if (c <? 32)%N then [92; 117; 48; 48; hex_digit (c / 16); hex_digit (c mod 16)]%N
  else [c].

Definition encode_basestring (s : str) : str :=
  [34%N] ++ mjoin (escape_char <$> s) ++ [34%N].

(** [sep.join(parts)] *)
Fixpoint str_join (sep : str) (parts : list str) : str :=
  match parts with
  | [] => []
  | [x] => x
  | x :: rest => x ++ sep ++ str_join sep rest
  end.

(** The encoder, for a given pair of separators.  Keys of a dict made by
    [json.loads] are strings. *)
Fixpoint dumps_with (item_separator key_separator : str) (v : json) : str :=
  match v with
  | JNull => py_str "null"
  | JBool true => py_str "true"
  | JBool false => py_str "false"
  | JInt z => py_str (NilZero.string_of_int (Z.to_int z))
  | JFloat repr => repr
  | JString s => encode_basestring s
  | JArray l =>
      [91%N] ++ str_join item_separator (dumps_with item_separator key_separator <$> l) ++ [93%N]
  | JObject d =>
      [123%N]
      ++ str_join item_separator
           ((λ kv : str * json,
               encode_basestring kv.1 ++ key_separator
               ++ dumps_with item_separator key_separator kv.2) <$> d)
      ++ [125%N]
  end.

(** The scripts pass no [separators] and no [indent]: the defaults are
    [", "] and [": "]. *)
Definition json_dumps (v : json) : str := dumps_with (py_str ", ") (py_str ": ") v.

Definition byte_of_N (n : N) : byte := default x00 (Byte.of_N n).

(** One code point in UTF-8; a surrogate, or a number that is no code
    point, cannot be encoded. *)
Definition utf8_of_code_point (c : N) : option bytes :=
  if (c <? 0x80)%N then Some [byte_of_N c]
  else if (c <? 0x800)%N then
    Some [byte_of_N (N.lor 0xC0 (N.shiftr c 6));
          byte_of_N (N.lor 0x80 (N.land c 0x3F))]
  else if (c <? 0x10000)%N then
    if (0xD800 <=? c)%N && (c <=? 0xDFFF)%N then None
    else
      Some [byte_of_N (N.lor 0xE0 (N.shiftr c 12));
            byte_of_N (N.lor 0x80 (N.land (N.shiftr c 6) 0x3F));
            byte_of_N (N.lor 0x80 (N.land c 0x3F))]
  else if (c <? 0x110000)%N then
    Some [byte_of_N (N.lor 0xF0 (N.shiftr c 18));
          byte_of_N (N.lor 0x80 (N.land (N.shiftr c 12) 0x3F));
          byte_of_N (N.lor 0x80 (N.land (N.shiftr c 6) 0x3F));
          byte_of_N (N.lor 0x80 (N.land c 0x3F))]
  else None.

(** [s.encode("utf-8")] *)
Definition encode_utf8 (s : str) : result bytes :=
  match mapM utf8_of_code_point s with
  | Some chunks => Ok (mjoin chunks)
  | None => Raise UnicodeEncodeError
  end.

(** [json.dumps(v, ensure_ascii=False).encode("utf-8")] *)
Definition dumps_utf8 (v : json) : result bytes := encode_utf8 (json_dumps v).

(** ** [json.loads] *)

(** [json.loads(b.decode("utf-8"))]: the parsed value, or [None] when the
    decoding or the parsing raises.  The scripts catch every exception of
    this call at each of its uses. *)
Class JsonLoads := json_loads : bytes → option json.

(** ** Parquet files and the file system *)

#[global] Instance byte_eq_dec : EqDecision byte := Byte.byte_eq_dec.
#[global] Instance byte_countable : Countable byte :=
  inj_countable Byte.to_N Byte.of_N Byte.of_to_N.

Abbreviation metadata := (gmap bytes bytes).
Abbreviation path := (list string).

(** A Parquet file: the key-value metadata of the file
    ([pq.read_metadata(p).metadata]), the metadata of its schema
    ([pq.read_schema(p).metadata]), and the rows.  Either metadata can be
    [None]. *)
Record parquet_file := ParquetFile {
  file_metadata : option metadata;
  schema_metadata : option metadata;
  rows : bytes;
}.

(** [pq.read_table(p)]: the schema metadata and the rows. *)
Record table := Table {
  table_metadata : option metadata;
  table_rows : bytes;
}.

Inductive node :=
| Directory
| Parquet (f : parquet_file)
| Other (content : bytes).

Abbreviation fs := (gmap path node).

(** [m or {}] *)
Definition or_empty (m : option metadata) : metadata := default ∅ m.

(** [if raw:] for an optional blob: present and not empty. *)
Definition blob_truthy (raw : option bytes) : bool :=
  match raw with
  | Some (_ :: _) => true
  | _ => false
  end.

Definition HUGGINGFACE : bytes := py_bytes "huggingface".

(** [table.replace_schema_metadata(existing)] *)
Definition replace_schema_metadata (t : table) (existing : metadata) : table :=
  {| table_metadata := Some existing; table_rows := table_rows t |}.

(** The file [pq.write_table] makes of a table: the schema metadata is
    stored with the schema and repeated in the key-value metadata of the
    file.  (pyarrow also keeps a serialised schema there, under
    [ARROW:schema]; it is left out.) *)
Definition file_of_table (t : table) : parquet_file :=
  {| file_metadata := table_metadata t;
     schema_metadata := table_metadata t;
     rows := table_rows t |}.

(** *** Paths *)

(** [p.parent] *)
Definition parent (p : path) : path := take (length p - 1) p.

(** [p.name] *)
Definition name (p : path) : string := default ""%string (last p).

(** [p.suffix == ".parquet"]: the name ends in [.parquet] and has a stem. *)
Definition has_parquet_suffix (p : path) : bool :=
  let n := String.length (name p) in
  (8 <? n) && String.eqb (String.substring (n - 8) 8 (name p)) ".parquet".

(** [p.relative_to(root)] *)
Fixpoint relative_to (p root : path) : result path :=
  match root, p with
  | [], _ => Ok p
  | r :: root', c :: p' =>
      if String.eqb r c then relative_to p' root' else Raise ValueError
  | _ :: _, [] => Raise ValueError
  end.

(** [q] is [p] or lies below it. *)
Definition under (q p : path) : Prop := p `prefix_of` q.

(** *** The environment

    What the operating system does when one walked entry is processed:
    the name it picks for the temporary file, and which calls fail.  A
    failing write can leave the target untouched or hold what had been
    written so far. *)
Inductive write_outcome :=
| Succeeds
| FailsUntouched
| FailsPartial (garbage : bytes).

Record env := Env {
  tmp_name : string;
  on_create : bool;
  on_write_table : write_outcome;
  on_replace : bool;
  on_unlink : bool;
  on_copy : write_outcome;
  on_mkdir : option nat;
}.

(** *** Commands *)

Definition io (A : Type) : Type := fs → fs * result A.

#[global] Instance io_ret : MRet io := λ A a σ, (σ, Ok a).
#[global] Instance io_bind : MBind io :=
  λ A B k m σ,
    match m σ with
    | (σ', Ok a) => k a σ'
    | (σ', Raise e) => (σ', Raise e)
    end.

Definition throw {A} (e : exn) : io A := λ σ, (σ, Raise e).

Definition lift {A} (r : result A) : io A := λ σ, (σ, r).

(** [try: m except Exception as e: h e] *)
Definition try_except {A} (m : io A) (h : exn → io A) : io A :=
  λ σ,
    match m σ with
    | (σ', Ok a) => (σ', Ok a)
    | (σ', Raise e) => h e σ'
    end.

Definition open_parquet (p : path) : io parquet_file :=
  λ σ,
    match σ !! p with
    | Some (Parquet f) => (σ, Ok f)
    | Some _ => (σ, Raise ArrowInvalid)
    | None => (σ, Raise OSError)
    end.

(** [pq.read_metadata(p).metadata] *)
Definition read_metadata (p : path) : io (option metadata) :=
  f ← open_parquet p; mret (file_metadata f).

(** [pq.read_schema(p).metadata] *)
Definition read_schema (p : path) : io (option metadata) :=
  f ← open_parquet p; mret (schema_metadata f).

(** [pq.read_table(p)] *)
Definition read_table (p : path) : io table :=
  f ← open_parquet p;
  mret {| table_metadata := schema_metadata f; table_rows := rows f |}.

(** [pq.write_table(t, p)] *)
Definition write_table (e : env) (t : table) (p : path) : io unit :=
  λ σ,
    match on_write_table e with
    | Succeeds => (<[p := Parquet (file_of_table t)]> σ, Ok ())
    | FailsUntouched => (σ, Raise OSError)
    | FailsPartial garbage => (<[p := Other garbage]> σ, Raise OSError)
    end.

(** [with tempfile.NamedTemporaryFile(dir=d, suffix=".parquet",
    delete=False) as tmp: tmp_path = Path(tmp.name)]: an empty file under
    a name that was not in use. *)
Definition NamedTemporaryFile (e : env) (d : path) : io path :=
  λ σ,
    let tmp_path := d ++ [tmp_name e] in
    if on_create e then
      match σ !! tmp_path with
      | None => (<[tmp_path := Other []]> σ, Ok tmp_path)
      | Some _ => (σ, Raise OSError)
      end
    else (σ, Raise OSError).

(** [os.replace(a, b)] *)
Definition os_replace (e : env) (a b : path) : io unit :=
  λ σ,
    if on_replace e then
      match σ !! a with
      | Some n => (delete a (<[b := n]> σ), Ok ())
      | None => (σ, Raise OSError)
      end
    else (σ, Raise OSError).

(** [p.unlink(missing_ok=True)] *)
Definition unlink (e : env) (p : path) : io unit :=
  λ σ, if on_unlink e then (delete p σ, Ok ()) else (σ, Raise OSError).

(** The directories [p.mkdir(parents=True, exist_ok=True)] goes through,
    from the top. *)
Definition ancestors_and_self (p : path) : list path :=
  (λ k, take k p) <$> seq 1 (length p).

Definition mkdir_one (q : path) : io unit :=
  λ σ,
    match σ !! q with
    | None => (<[q := Directory]> σ, Ok ())
    | Some Directory => (σ, Ok ())
    | Some _ => (σ, Raise OSError)
    end.

Fixpoint mkdir_all (qs : list path) : io unit :=
  match qs with
  | [] => mret ()
  | q :: qs' => mkdir_one q;; mkdir_all qs'
  end.

(** [p.mkdir(parents=True, exist_ok=True)] *)
Definition mkdir (e : env) (p : path) : io unit :=
  match on_mkdir e with
  | None => mkdir_all (ancestors_and_self p)
  | Some k => mkdir_all (take k (ancestors_and_self p));; throw OSError
  end.

(** [shutil.copy2(a, b)]: into [b], or into [b / a.name] when [b] is a
    directory. *)
Definition copy2 (e : env) (a b : path) : io unit :=
  λ σ,
    match σ !! a with
    | Some Directory | None => (σ, Raise OSError)
    | Some n =>
        let target :=
          match σ !! b with
          | Some Directory => b ++ [name a]
          | _ => b
          end in
        if bool_decide (target = a) then (σ, Raise SameFileError)
        else
          match on_copy e with
          | Succeeds => (<[target := n]> σ, Ok ())
          | FailsUntouched => (σ, Raise OSError)
          | FailsPartial garbage => (<[target := Other garbage]> σ, Raise OSError)
          end
    end.

(** ** scripts/fix_parquet_hf_metadata.py *)

Module Fix.

(** What a [return] statement of [convert_list_to_sequence] hands back:
    the early exits return a pair, the last line a triple. *)
Inductive returned :=
| Tuple2 (hf : json) (changes : nat)
| Tuple3 (hf : json) (changes : nat) (changed_names : list str).

(** The [for name, spec in feats.items()] loop.  It runs over the items of
    [feats] in order; an item whose [spec] is tagged is updated where it
    stands.  The result is the items after the loop, with the two
    accumulators. *)
Fixpoint loop (items : dict) (changes : nat) (changed_names : list str)
  : dict * nat * list str :=
  match items with
  | [] => ([], changes, changed_names)
  | (name, spec) :: rest =>
      if is_List_spec spec then
        let '(rest', c, ns) := loop rest (changes + 1) (changed_names ++ [name]) in
        ((name, retag spec) :: rest', c, ns)
      else
        let '(rest', c, ns) := loop rest changes changed_names in
        ((name, spec) :: rest', c, ns)
  end.

Definition convert_list_to_sequence (hf : json) : result returned :=
  match hf with
  | JObject d =>
      let info :=
        match dict_get (py_str "info") d with
        | Some v => if truthy v then v else JObject []
        | None => JObject []
        end in
      match info with
      | JObject i =>
          match dict_get (py_str "features") i with
          | Some (JObject feats) =>
              let '(feats', changes, changed_names) := loop feats 0 [] in
              (* [feats] is the object under [hf["info"]["features"]]:
                 the loop changed it inside [hf]. *)
              let d' :=
                dict_set (py_str "info")
                  (JObject (dict_set (py_str "features") (JObject feats') i)) d in
              if bool_decide (changes = 0) then
                Ok (Tuple3 (JObject d') changes changed_names)
              else
                d'' ← ensure_structure (JObject feats') d';
                Ok (Tuple3 (JObject d'') changes changed_names)
          | _ => Ok (Tuple2 hf 0)
          end
      | _ => Raise AttributeError
      end
  | _ => Ok (Tuple2 hf 0)
  end.

(** *** Reading the two slots *)

Inductive source := source_file | source_schema | source_none.

(** [json] is [JNull] where the source has [None]. *)
Record HFMeta := {
  hf_source : source;
  hf_json : json;
  raw_file : option bytes;
  raw_schema : option bytes;
}.

Section WithLoads.
Context `{JsonLoads}.

(** [try: data = json.loads(src_bytes.decode("utf-8"))
    except Exception: data = None] *)
Definition loads_or_None (src_bytes : bytes) : json :=
  default JNull (json_loads src_bytes).

(** Lines 74 to 91: the source is chosen by what is present, then
    decoded. *)
Definition select_source (raw_file raw_schema : option bytes) : HFMeta :=
  (* Choose a source without decoding first *)
  if blob_truthy raw_file then
    {| hf_source := source_file;
       hf_json := loads_or_None (default [] raw_file);
       raw_file := raw_file; raw_schema := raw_schema |}
  else if blob_truthy raw_schema then
    {| hf_source := source_schema;
       hf_json := loads_or_None (default [] raw_schema);
       raw_file := raw_file; raw_schema := raw_schema |}
  else
    {| hf_source := source_none; hf_json := JNull;
       raw_file := None; raw_schema := None |}.

Definition read_hf_metadata (pq_path : path) : io HFMeta :=
  md ← read_metadata pq_path;
  schema ← read_schema pq_path;
  let file_meta := or_empty md in
  let schema_meta := or_empty schema in
  let raw_file := file_meta !! HUGGINGFACE in
  let raw_schema := schema_meta !! HUGGINGFACE in
  mret (select_source raw_file raw_schema).

(** *** Writing *)

Definition write_with_hf_metadata (e : env) (src : path) (dest : option path)
    (hf_json : json) : io unit :=
  table ← read_table src;
  let existing := or_empty (table_metadata table) in
  blob ← lift (dumps_utf8 hf_json);
  let existing := <[HUGGINGFACE := blob]> existing in
  let new_table := replace_schema_metadata table existing in
  if bool_decide (dest = None ∨ dest = Some src) then
    (* Atomic in-place rewrite *)
    tmp_path ← NamedTemporaryFile e (parent src);
    try_except
      (write_table e new_table tmp_path;;
       os_replace e tmp_path src)
      (λ ex,
         try_except (unlink e tmp_path) (λ _, mret ());;
         throw ex)
  else
    let dest := default src dest in
    mkdir e (parent dest);;
    write_table e new_table dest.

(** *** The loop of [main] *)

Inductive preference := prefer_file | prefer_schema | prefer_auto.

Record args := {
  out_root : option path;
  apply : bool;
  limit : option Z;
  prefer : preference;
}.

Record counters := {
  seen_parquet : nat;
  affected_parquet : nat;
  changed_entries : nat;
  copied_other : nat;
  total_parquet : nat;
}.

(** The line [main] prints for an entry. *)
Inductive report :=
| dry_run_mkdir (dest_dir : path)
| copy (applied : bool) (src dest : path)
| copy_no_hf_meta (applied : bool) (src dest : path)
| skip_no_hf_meta (src : path)
| ok_no_change (src : path)
| applied_write (dest : path) (n_changes : nat) (changed_names : list str)
| applied_update (src : path) (n_changes : nat) (changed_names : list str)
| would_write (hint : path) (n_changes : nat) (changed_names : list str).

(** [out_root = (out_root_base / root_resolved.name) if out_root_base
    else None]; joining the empty name of the root directory changes
    nothing. *)
Definition nest_out_root (out_root_base : option path) (root_resolved : path)
  : option path :=
  (λ base, base ++ default [] ((λ n, [n]) <$> last root_resolved)) <$> out_root_base.

(** Lines 211 to 222: the source the caller forces. *)
Definition choose_json (prefer : preference) (hf_meta : HFMeta) : json :=
  let chosen_json := hf_json hf_meta in
  match prefer with
  | prefer_schema =>
      if blob_truthy (raw_schema hf_meta) then
        default chosen_json (json_loads (default [] (raw_schema hf_meta)))
      else chosen_json
  | prefer_file =>
      if blob_truthy (raw_file hf_meta) then
        default chosen_json (json_loads (default [] (raw_file hf_meta)))
      else chosen_json
  | prefer_auto => chosen_json
  end.

(** [updated_json, n_changes, changed_names = ...]: unpacking a pair
    into three names raises [ValueError]. *)
Definition unpack3 (r : returned) : result (json * nat * list str) :=
  match r with
  | Tuple3 hf changes changed_names => Ok (hf, changes, changed_names)
  | Tuple2 _ _ => Raise ValueError
  end.

(** Lines 228 to 230. *)
Definition needs_write (hf_meta : HFMeta) (target_bytes : bytes) : bool :=
  let schema_same := bool_decide (raw_schema hf_meta = Some target_bytes) in
  let file_same :=
    match raw_file hf_meta with
    | Some f => bool_decide (f = target_bytes)
    | None => false
    end in
  negb (schema_same && file_same).

Definition is_Some_path (o : option path) : bool :=
  match o with
  | Some _ => true
  | None => false
  end.

(** The body of the [for path, is_dir in iter_all_paths(root_resolved)]
    loop, for one entry: the counters after it and the line printed. *)
Definition body (a : args) (root_resolved : path) (c : counters)
    (p : path) (is_dir : bool) (e : env) : io (counters * option report) :=
  rel ← lift (relative_to p root_resolved);
  if is_dir then
    match out_root a with
    | Some o =>
        let dest_dir := o ++ rel in
        if apply a then mkdir e dest_dir;; mret (c, None)
        else mret (c, Some (dry_run_mkdir dest_dir))
    | None => mret (c, None)
    end
  else if negb (has_parquet_suffix p) then
    (* passthrough copy for non-parquet when mirroring *)
    match out_root a with
    | Some o =>
        let dest := o ++ rel in
        (if apply a then mkdir e (parent dest);; copy2 e p dest else mret ());;
        mret ({| seen_parquet := seen_parquet c;
                 affected_parquet := affected_parquet c;
                 changed_entries := changed_entries c;
                 copied_other := copied_other c + 1;
                 total_parquet := total_parquet c |},
              Some (copy (apply a) p dest))
    | None => mret (c, None)
    end
  else
    let c := {| seen_parquet := seen_parquet c;
                affected_parquet := affected_parquet c;
                changed_entries := changed_entries c;
                copied_other := copied_other c;
                total_parquet := total_parquet c + 1 |} in
    if match limit a with
       | Some l => bool_decide (l ≤ Z.of_nat (seen_parquet c))%Z
       | None => false
       end
    then mret (c, None)
    else
      let c := {| seen_parquet := seen_parquet c + 1;
                  affected_parquet := affected_parquet c;
                  changed_entries := changed_entries c;
                  copied_other := copied_other c;
                  total_parquet := total_parquet c |} in
      hf_meta ← read_hf_metadata p;
      if match hf_source hf_meta with
         | source_none => true
         | _ => is_None (hf_json hf_meta)
         end
      then
        (* No usable HF metadata; just mirror/copy-through *)
        match out_root a with
        | Some o =>
            let dest := o ++ rel in
            (if apply a then mkdir e (parent dest);; copy2 e p dest else mret ());;
            mret (c, Some (copy_no_hf_meta (apply a) p dest))
        | None => mret (c, Some (skip_no_hf_meta p))
        end
      else
        let chosen_json := choose_json (prefer a) hf_meta in
        r ← lift (convert_list_to_sequence chosen_json);
        '(updated_json, n_changes, changed_names) ← lift (unpack3 r);
        target_bytes ← lift (dumps_utf8 updated_json);
        let needs_write := needs_write hf_meta target_bytes in
        if negb needs_write && negb (is_Some_path (out_root a)) then
          (* Nothing to do in-place *)
          mret (c, Some (ok_no_change p))
        else
          let c := {| seen_parquet := seen_parquet c;
                      affected_parquet :=
                        affected_parquet c + (if needs_write then 1 else 0);
                      changed_entries := changed_entries c + n_changes;
                      copied_other := copied_other c;
                      total_parquet := total_parquet c |} in
          let dest := (λ o, o ++ rel) <$> out_root a in
          if apply a then
            write_with_hf_metadata e p dest updated_json;;
            mret (c, Some (match dest with
                           | Some d => applied_write d n_changes changed_names
                           | None => applied_update p n_changes changed_names
                           end))
          else
            mret (c, Some (would_write (default p dest) n_changes changed_names)).

(** The loop over the entries the walk yields, each with what the
    environment does while it is processed.  An exception ends the
    run. *)
Fixpoint main_loop (a : args) (root_resolved : path) (c : counters)
    (entries : list (path * bool * env)) : io (counters * list report) :=
  match entries with
  | [] => mret (c, [])
  | (p, is_dir, e) :: rest =>
      '(c', line) ← body a root_resolved c p is_dir e;
      '(c'', lines) ← main_loop a root_resolved c' rest;
      mret (c'', option_list line ++ lines)
  end.

End WithLoads.

End Fix.

(** ** scripts/convert_parquet_hf_list_to_sequence.py *)

Module Convert.

(** The same loop, without the list of names. *)
Fixpoint loop (items : dict) (changes : nat) : dict * nat :=
  match items with
  | [] => ([], changes)
  | (name, spec) :: rest =>
      if is_List_spec spec then
        let '(rest', c) := loop rest (changes + 1) in
        ((name, retag spec) :: rest', c)
      else
        let '(rest', c) := loop rest changes in
        ((name, spec) :: rest', c)
  end.

Definition convert_list_to_sequence (hf : json) : result (json * nat) :=
  match hf with
  | JObject d =>
      let info :=
        match dict_get (py_str "info") d with
        | Some v => if truthy v then v else JObject []
        | None => JObject []
        end in
      match info with
      | JObject i =>
          match dict_get (py_str "features") i with
          | Some (JObject feats) =>
              let '(feats', changes) := loop feats 0 in
              let d' :=
                dict_set (py_str "info")
                  (JObject (dict_set (py_str "features") (JObject feats') i)) d in
              if bool_decide (changes = 0) then Ok (JObject d', changes)
              else
                d'' ← ensure_structure (JObject feats') d';
                Ok (JObject d'', changes)
          | _ => Ok (hf, 0)
          end
      | _ => Raise AttributeError
      end
  | _ => Ok (hf, 0)
  end.

Section WithLoads.
Context `{JsonLoads}.

(** The parsed JSON of the file-level slot ([JNull] for [None]) and the
    file-level metadata. *)
Definition load_hf_metadata (pq_path : path) : io (json * metadata) :=
  md ← read_metadata pq_path;
  let meta := or_empty md in
  let hf_raw := meta !! HUGGINGFACE in
  if negb (blob_truthy hf_raw) then mret (JNull, meta)
  else
    match json_loads (default [] hf_raw) with
    | Some hf => mret (hf, meta)
    | None => mret (JNull, meta)
    end.

(** [existing.update(new_metadata)]: the keys of [new_metadata] win. *)
Definition update (existing new_metadata : metadata) : metadata :=
  new_metadata ∪ existing.

Definition rewrite_parquet_with_metadata (e : env) (src : path)
    (new_metadata : metadata) : io unit :=
  (* Read table *)
  table ← read_table src;
  (* Merge new metadata with existing schema metadata *)
  let existing := or_empty (table_metadata table) in
  let existing := update existing new_metadata in
  let new_table := replace_schema_metadata table existing in
  (* Write to temp and atomically replace *)
  tmp_path ← NamedTemporaryFile e (parent src);
  try_except
    (write_table e new_table tmp_path;;
     os_replace e tmp_path src)
    (λ ex,
       (* Cleanup temp on failure *)
       try_except (unlink e tmp_path) (λ _, mret ());;
       throw ex).

Record args := {
  out_root : option path;
  apply : bool;
  limit : option Z;
}.

Record counters := {
  total_parquet : nat;
  affected_parquet : nat;
  changed_entries : nat;
  copied_other : nat;
  parquet_seen : nat;
}.

Inductive note := no_hf_meta | no_change.

(** The line [main] prints for an entry. *)
Inductive report :=
| dry_run_mkdir (dest_dir : path)
| copy (applied : bool) (src dest : path) (why : option note)
| applied_write (dest : path) (n_changes : nat)
| applied_in_place (src : path) (n_changes : nat)
| would_write (hint : path) (n_changes : nat).

(** [if out_root: ... copy2(path, dest) ...], the copy-through of a
    Parquet file that is not rewritten. *)
Definition copy_through (a : args) (e : env) (p rel : path) (why : note)
  : io (option report) :=
  match out_root a with
  | Some o =>
      let dest := o ++ rel in
      if apply a then
        mkdir e (parent dest);;
        copy2 e p dest;;
        mret (Some (copy true p dest (Some why)))
      else mret (Some (copy false p dest (Some why)))
  | None => mret None
  end.

(** The body of the walk of [main], for one entry. *)
Definition body (a : args) (src_root : path) (c : counters)
    (p : path) (is_dir : bool) (e : env) : io (counters * option report) :=
  rel ← lift (relative_to p src_root);
  if is_dir then
    match out_root a with
    | Some o =>
        let dest_dir := o ++ rel in
        if apply a then mkdir e dest_dir;; mret (c, None)
        else mret (c, Some (dry_run_mkdir dest_dir))
    | None => mret (c, None)
    end
  else if has_parquet_suffix p then
    if match limit a with
       | Some l => bool_decide (l ≤ Z.of_nat (parquet_seen c))%Z
       | None => false
       end
    then mret (c, None)
    else
      let c := {| total_parquet := total_parquet c + 1;
                  affected_parquet := affected_parquet c;
                  changed_entries := changed_entries c;
                  copied_other := copied_other c;
                  parquet_seen := parquet_seen c + 1 |} in
      '(hf, meta) ← load_hf_metadata p;
      if is_None hf then
        (* No HF metadata; copy-through *)
        line ← copy_through a e p rel no_hf_meta;
        mret (c, line)
      else
        '(updated_hf, n_changes) ← lift (convert_list_to_sequence hf);
        if bool_decide (n_changes = 0) then
          (* No change; copy-through if out_root is set *)
          line ← copy_through a e p rel no_change;
          mret (c, line)
        else
          let c := {| total_parquet := total_parquet c;
                      affected_parquet := affected_parquet c + 1;
                      changed_entries := changed_entries c + n_changes;
                      copied_other := copied_other c;
                      parquet_seen := parquet_seen c |} in
          if apply a then
            blob ← lift (dumps_utf8 updated_hf);
            let new_meta := <[HUGGINGFACE := blob]> meta in
            (* Determine destination path *)
            match out_root a with
            | Some o =>
                let dest := o ++ rel in
                mkdir e (parent dest);;
                (* Write directly to destination *)
                table ← read_table p;
                let existing := or_empty (table_metadata table) in
                let existing := update existing new_meta in
                let new_table := replace_schema_metadata table existing in
                write_table e new_table dest;;
                mret (c, Some (applied_write dest n_changes))
            | None =>
                rewrite_parquet_with_metadata e p new_meta;;
                mret (c, Some (applied_in_place p n_changes))
            end
          else
            mret (c, Some (would_write
                             (match out_root a with
                              | Some o => o ++ rel
                              | None => p
                              end) n_changes))
  else
    (* Non-parquet file: copy-through if out_root *)
    match out_root a with
    | Some o =>
        let dest := o ++ rel in
        (if apply a then mkdir e (parent dest);; copy2 e p dest else mret ());;
        mret ({| total_parquet := total_parquet c;
                 affected_parquet := affected_parquet c;
                 changed_entries := changed_entries c;
                 copied_other := copied_other c + 1;
                 parquet_seen := parquet_seen c |},
              Some (copy (apply a) p dest None))
    | None => mret (c, None)
    end.

Fixpoint main_loop (a : args) (src_root : path) (c : counters)
    (entries : list (path * bool * env)) : io (counters * list report) :=
  match entries with
  | [] => mret (c, [])
  | (p, is_dir, e) :: rest =>
      '(c', line) ← body a src_root c p is_dir e;
      '(c'', lines) ← main_loop a src_root c' rest;
      mret (c'', option_list line ++ lines)
  end.

End WithLoads.

End Convert.

(** [s.endswith(suffix)] *)
Definition endswith (s suffix : string) : bool :=
  let n := String.length s in
  let m := String.length suffix in
  (m <=? n) && String.eqb (String.substring (n - m) m s) suffix.

(** ** scripts/normalize_parquet_hf_schema_meta.py *)

Module Normalize.

Inductive message :=
| no_hf_metadata
| invalid_hf_json
| schema_up_to_date
| would_update_schema_hf_metadata
| updated_schema_hf_metadata.

Section WithLoads.
Context `{JsonLoads}.

(** [hf_file or hf_schema] *)
Definition or_blob (hf_file hf_schema : option bytes) : option bytes :=
  if blob_truthy hf_file then hf_file else hf_schema.

(** Returns [(changed, message)]. *)
Definition normalize_file (e : env) (p : path) (dry_run : bool)
  : io (bool * message) :=
  md ← read_metadata p;
  schema ← read_schema p;
  let file_meta := or_empty md in
  let schema_meta := or_empty schema in
  let hf_file := file_meta !! HUGGINGFACE in
  let hf_schema := schema_meta !! HUGGINGFACE in
  if negb (blob_truthy hf_file) && negb (blob_truthy hf_schema) then
    mret (false, no_hf_metadata)
  else
    (* Prefer file-level HF JSON when present *)
    let source := or_blob hf_file hf_schema in
    match json_loads (default [] source) with
    | None => mret (false, invalid_hf_json)
    | Some src_json =>
        (* If schema already matches file-level, no change *)
        if bool_decide (hf_schema = source) then mret (false, schema_up_to_date)
        else if dry_run then mret (true, would_update_schema_hf_metadata)
        else
          table ← read_table p;
          let existing := or_empty (table_metadata table) in
          blob ← lift (dumps_utf8 src_json);
          let existing := <[HUGGINGFACE := blob]> existing in
          let new_table := replace_schema_metadata table existing in
          (* Overwrite in-place *)
          write_table e new_table p;;
          mret (true, updated_schema_hf_metadata)
    end.

(** *** The loop of [main] *)

Record counters := {
  total : nat;
  changed : nat;
  skipped : nat;
}.

(** [for fname in filenames]: the files of one directory, each name with
    what the environment does while its file is processed.  The result is
    the counters and the lines printed, a path and a message each. *)
Fixpoint files_loop (dry_run : bool) (dirpath : path) (c : counters)
    (filenames : list (string * env)) : io (counters * list (path * message)) :=
  match filenames with
  | [] => mret (c, [])
  | (fname, e) :: rest =>
      if negb (endswith fname ".parquet") then files_loop dry_run dirpath c rest
      else
        let c := {| total := total c + 1; changed := changed c;
                    skipped := skipped c |} in
        let p := dirpath ++ [fname] in
        '(ch, msg) ← normalize_file e p dry_run;
        let c :=
          if ch : bool
          then {| total := total c; changed := changed c + 1; skipped := skipped c |}
          else {| total := total c; changed := changed c; skipped := skipped c + 1 |} in
        '(c', lines) ← files_loop dry_run dirpath c rest;
        mret (c', (p, msg) :: lines)
  end.

(** [for dirpath, _, filenames in os.walk(root)], over what the walk
    yields. *)
Fixpoint main_loop (dry_run : bool) (c : counters)
    (walk : list (path * list (string * env)))
  : io (counters * list (path * message)) :=
  match walk with
  | [] => mret (c, [])
  | (dirpath, filenames) :: rest =>
      '(c', lines) ← files_loop dry_run dirpath c filenames;
      '(c'', lines') ← main_loop dry_run c' rest;
      mret (c'', lines ++ lines')
  end.

End WithLoads.

End Normalize.

(** What the loop leaves of one item. *)
Definition rewritten (item : str * json) : str * json :=
  (item.1, if decide (tagged_List item.2) then retag item.2 else item.2).

Definition tagged_item (item : str * json) : Prop := tagged_List item.2.

#[global] Instance tagged_item_dec item : Decision (tagged_item item) :=
  tagged_List_dec item.2.

(** The document after the loop: the feature map put back where it was. *)
Definition put_back (d i : dict) (feats' : dict) : dict :=
  dict_set (py_str "info")
    (JObject (dict_set (py_str "features") (JObject feats') i)) d.

(** ** Sample inputs *)

Module Sample.

(** [{"_type": t}] *)
Definition typed (t : string) : json := JObject [(py_str "_type", JString (py_str t))].

(** [{"info": {"features": feats}}] *)
Definition document (feats : dict) : json :=
  JObject [(py_str "info", JObject [(py_str "features", JObject feats)])].

(** [{"a": {"_type": "List", "feature": {"_type": "Value"}},
      "b": {"_type": "Value"}}] *)
Definition feats_a_b : dict :=
  [(py_str "a", JObject [(py_str "_type", JString (py_str "List"));
                         (py_str "feature", typed "Value")]);
   (py_str "b", typed "Value")].

(** The same with [a] tagged [Sequence]. *)
Definition feats_a_b_fixed : dict :=
  [(py_str "a", JObject [(py_str "_type", JString (py_str "Sequence"));
                         (py_str "feature", typed "Value")]);
   (py_str "b", typed "Value")].

End Sample.

(** ** Reading a returned tuple *)

(** The first and second components of what [convert_list_to_sequence]
    returned, whatever its length. *)
Definition returned_hf (r : Fix.returned) : json :=
  match r with
  | Fix.Tuple2 hf _ => hf
  | Fix.Tuple3 hf _ _ => hf
  end.

Definition returned_changes (r : Fix.returned) : nat :=
  match r with
  | Fix.Tuple2 _ changes => changes
  | Fix.Tuple3 _ changes _ => changes
  end.

(** ** Well-behaved environments *)


(** The table of a file with [blob] under the [huggingface] key of its
    schema metadata, as [write_with_hf_metadata] builds it. *)
Definition with_hf_blob (f : parquet_file) (blob : bytes) : table :=
  replace_schema_metadata
    {| table_metadata := schema_metadata f; table_rows := rows f |}
    (<[HUGGINGFACE := blob]> (or_empty (schema_metadata f))).

(** ** Sample files *)

Module SampleFiles.

(** The bytes [json.dumps(v, ensure_ascii=False).encode("utf-8")]. *)
Definition blob (v : json) : bytes :=
  match dumps_utf8 v with
  | Ok b => b
  | Raise _ => []
  end.

(** [json.loads] on the blobs of the samples: the text [json.dumps] writes
    for a document parses back to it, and a lone opening brace does not
    parse.  No other blob is used. *)
Definition parsed : list (bytes * json) :=
  [(blob (Sample.document Sample.feats_a_b), Sample.document Sample.feats_a_b);
   (blob (Sample.document Sample.feats_a_b_fixed), Sample.document Sample.feats_a_b_fixed);
   (blob (JObject []), JObject [])].

Fixpoint find_blob (b : bytes) (known : list (bytes * json)) : option json :=
  match known with
  | [] => None
  | (b', v) :: rest => if decide (b' = b) then Some v else find_blob b rest
  end.

Definition loads : JsonLoads := λ b, find_blob b parsed.

Definition truncated : bytes := py_bytes "{".

(** A Parquet file with the given blobs under [huggingface], and one more
    key in each metadata map. *)
Definition file_with (raw_file raw_schema : option bytes) : parquet_file :=
  {| file_metadata :=
       Some (from_option (λ b, <[HUGGINGFACE := b]>) id raw_file
               {[py_bytes "custom_tag" := py_bytes "file"]});
     schema_metadata :=
       Some (from_option (λ b, <[HUGGINGFACE := b]>) id raw_schema
               {[py_bytes "custom_tag" := py_bytes "schema"]});
     rows := py_bytes "rows" |}.

Definition root : path := ["data"; "set"]%string.
Definition shard : path := ["data"; "set"; "shard.parquet"]%string.

Definition disk (f : parquet_file) : fs :=
  {[ ["data"]%string := Directory; root := Directory; shard := Parquet f ]}.

(** An environment in which nothing fails. *)
Definition calm : env :=
  {| tmp_name := "tmp0.parquet"; on_create := true; on_write_table := Succeeds;
     on_replace := true; on_unlink := true; on_copy := Succeeds; on_mkdir := None |}.

Definition in_place (p : Fix.preference) : Fix.args :=
  {| Fix.out_root := None; Fix.apply := true; Fix.limit := None; Fix.prefer := p |}.

Definition zero : Fix.counters :=
  {| Fix.seen_parquet := 0; Fix.affected_parquet := 0; Fix.changed_entries := 0;
     Fix.copied_other := 0; Fix.total_parquet := 0 |}.

(** [--root data/set --out mirror --apply] *)
Definition mirror : Fix.args :=
  {| Fix.out_root := Fix.nest_out_root (Some ["mirror"%string]) root;
     Fix.apply := true; Fix.limit := None; Fix.prefer := Fix.prefer_auto |}.

(** [--root data/set --out data/set --apply] *)
Definition mirror_onto_root : Fix.args :=
  {| Fix.out_root := Fix.nest_out_root (Some root) root;
     Fix.apply := true; Fix.limit := None; Fix.prefer := Fix.prefer_auto |}.

Definition notes : path := ["data"; "set"; "notes.txt"]%string.

Definition disk_with_notes : fs :=
  {[ ["data"]%string := Directory; root := Directory;
     notes := Other (py_bytes "hello") ]}.

Definition convert_in_place : Convert.args :=
  {| Convert.out_root := None; Convert.apply := true; Convert.limit := None |}.

Definition convert_zero : Convert.counters :=
  {| Convert.total_parquet := 0; Convert.affected_parquet := 0;
     Convert.changed_entries := 0; Convert.copied_other := 0;
     Convert.parquet_seen := 0 |}.

(** An environment in which [pq.write_table] fails after four bytes. *)
Definition torn : env :=
  {| tmp_name := "tmp0.parquet"; on_create := true;
     on_write_table := FailsPartial (py_bytes "PAR1");
     on_replace := true; on_unlink := true; on_copy := Succeeds; on_mkdir := None |}.

End SampleFiles.

(** ** Counters of the one-pass script *)

(** The counters after one more Parquet file was seen. *)
Definition seen (c : Fix.counters) : Fix.counters :=
  {| Fix.seen_parquet := Fix.seen_parquet c + 1;
     Fix.affected_parquet := Fix.affected_parquet c;
     Fix.changed_entries := Fix.changed_entries c;
     Fix.copied_other := Fix.copied_other c;
     Fix.total_parquet := Fix.total_parquet c + 1 |}.

(** The counters after a file was counted as affected. *)
Definition counted (needs_write : bool) (n_changes : nat) (c : Fix.counters)
  : Fix.counters :=
  {| Fix.seen_parquet := Fix.seen_parquet c;
     Fix.affected_parquet := Fix.affected_parquet c + (if needs_write then 1 else 0);
     Fix.changed_entries := Fix.changed_entries c + n_changes;
     Fix.copied_other := Fix.copied_other c;
     Fix.total_parquet := Fix.total_parquet c |}.

(** The cap on the number of files is not reached. *)
Definition under_limit (a : Fix.args) (c : Fix.counters) : Prop :=
  ∀ l, Fix.limit a = Some l → (Z.of_nat (Fix.seen_parquet c) < l)%Z.

(** ** Empty and absent slots *)

(** The blob in the file-level slot of a file, and in its schema-level
    slot. *)
Definition file_blob (f : parquet_file) : option bytes :=
  or_empty (file_metadata f) !! HUGGINGFACE.

Definition schema_blob (f : parquet_file) : option bytes :=
  or_empty (schema_metadata f) !! HUGGINGFACE.



(** ** The atomic write *)

(** The block shared by the two atomic writers: a temporary file next to
    [src], the table written to it, the rename over [src], and the cleanup
    when one of the two raises. *)
Definition write_then_replace (e : env) (src : path) (new_table : table) : io unit :=
  tmp_path ← NamedTemporaryFile e (parent src);
  try_except
    (write_table e new_table tmp_path;;
     os_replace e tmp_path src)
    (λ ex,
       try_except (unlink e tmp_path) (λ _, mret ());;
       throw ex).

(** ** The serialisation the specification describes *)



(** ** What a run may change *)

(** [σ'] differs from [σ] only at paths at or below [o], and by
    directories that were missing on the way down to [o]. *)
Definition changed_within (o : path) (σ σ' : fs) : Prop :=
  ∀ q, σ' !! q = σ !! q
       ∨ o `prefix_of` q
       ∨ (q `prefix_of` o ∧ σ !! q = None ∧ σ' !! q = Some Directory).

(** Every run of the command, returning or raising, leaves the file system
    related to the one it started from. *)
Definition respects {A : Type} (R : fs → fs → Prop) (m : io A) : Prop :=
  ∀ σ σ' r, m σ = (σ', r) → R σ σ'.

(** Neither directory lies in the tree of the other. *)
Definition separate (a b : path) : Prop := ¬ a `prefix_of` b ∧ ¬ b `prefix_of` a.

(** ** What an in-place run may change *)

(** [σ'] differs from [σ] at paths that satisfy [P] only. *)
Definition changed_only_at (P : path → Prop) (σ σ' : fs) : Prop :=
  ∀ q, σ' !! q = σ !! q ∨ P q.

(** A path an in-place run over [entries] may write: a walked file with the
    suffix [.parquet], or the temporary file made next to it. *)
Definition in_place_target (entries : list (path * bool * env)) (q : path) : Prop :=
  ∃ p e, (p, false, e) ∈ entries ∧ has_parquet_suffix p = true
         ∧ (q = p ∨ q = parent p ++ [tmp_name e]).

(** A path [normalize_parquet_hf_schema_meta.py] may write: a file of a
    walked directory whose name ends in [.parquet]. *)
Definition normalize_target (walk : list (path * list (string * env))) (q : path)
  : Prop :=
  ∃ dirpath filenames fname e,
    (dirpath, filenames) ∈ walk ∧ (fname, e) ∈ filenames
    ∧ endswith fname ".parquet" = true ∧ q = dirpath ++ [fname].

(** * Properties *)

(** ** Dictionaries *)

Lemma dict_get_set_eq k v d : dict_get k (dict_set k v d) = Some v.
Proof.
  induction d as [|[k' v'] d IH]; simpl.
  - by rewrite decide_True.
  - destruct (decide (k' = k)) as [->|Hne]; simpl.
    + by rewrite decide_True.
    + by rewrite decide_False.
Qed.

Lemma dict_get_set_ne k k' v d : k' ≠ k → dict_get k' (dict_set k v d) = dict_get k' d.
Proof.
  intros Hne. induction d as [|[k0 v0] d IH]; simpl.
  - by rewrite decide_False.
  - destruct (decide (k0 = k)) as [->|Hk]; simpl.
    + by rewrite !decide_False.
    + destruct (decide (k0 = k')); [done | apply IH].
Qed.

Lemma dict_keys_set k v d : is_Some (dict_get k d) → dict_keys (dict_set k v d) = dict_keys d.
Proof.
  unfold dict_keys. induction d as [|[k0 v0] d IH]; cbn [dict_get dict_set].
  - by intros [? ?].
  - destruct (decide (k0 = k)) as [->|Hk]; [done|].
    intros Hs. rewrite !fmap_cons. f_equal. by apply IH.
Qed.

Lemma dict_set_id k v d : dict_get k d = Some v → dict_set k v d = d.
Proof.
  induction d as [|[k0 v0] d IH]; simpl; [done|].
  destruct (decide (k0 = k)) as [->|Hk].
  - by intros [= ->].
  - intros Hg. by rewrite IH.
Qed.

Lemma dict_set_set k v w d : dict_set k v (dict_set k w d) = dict_set k v d.
Proof.
  induction d as [|[k0 v0] d IH]; simpl.
  - by rewrite decide_True.
  - destruct (decide (k0 = k)) as [->|Hk]; simpl.
    + by rewrite decide_True.
    + by rewrite decide_False, IH.
Qed.

(** ** The rewrite *)

Lemma is_List_spec_true spec : is_List_spec spec = true ↔ tagged_List spec.
Proof.
  unfold tagged_List, is_List_spec. split.
  - destruct spec as [| | | | |l|s]; try discriminate.
    destruct (dict_get (py_str "_type") s) as [[| | | |t| |]|] eqn:E; try discriminate.
    intros Ht%bool_decide_eq_true. subst t. by exists s.
  - intros (s & -> & ->). by apply bool_decide_eq_true.
Qed.

Lemma is_List_spec_false spec : is_List_spec spec = false ↔ ¬ tagged_List spec.
Proof.
  rewrite <- is_List_spec_true. destruct (is_List_spec spec); split; congruence.
Qed.

Lemma retag_retagged spec : tagged_List spec → retagged spec (retag spec).
Proof.
  intros (s & -> & Hs). exists s, (dict_set (py_str "_type") (JString (py_str "Sequence")) s).
  split_and!; [done | done | | | ].
  - apply dict_keys_set. by rewrite Hs.
  - apply dict_get_set_eq.
  - intros k Hk. by apply dict_get_set_ne.
Qed.

Lemma retag_not_tagged spec : ¬ tagged_List (retag spec) ∨ ¬ tagged_List spec.
Proof.
  destruct spec as [| | | | |l|s]; try (right; by intros (? & [=] & _)).
  left. intros (s' & [= <-] & Hs'). by rewrite dict_get_set_eq in Hs'.
Qed.

Lemma Fix_loop_spec items changes changed_names :
  Fix.loop items changes changed_names
  = (rewritten <$> items,
     changes + length (filter tagged_item items),
     changed_names ++ (fst <$> filter tagged_item items)).
Proof.
  revert changes changed_names.
  induction items as [|[name spec] items IH]; intros changes changed_names.
  - simpl. by rewrite Nat.add_0_r, app_nil_r.
  - cbn [Fix.loop]. rewrite fmap_cons. unfold rewritten at 1. cbn [fst snd].
    destruct (decide (tagged_List spec)) as [Ht|Hn].
    + rewrite (proj2 (is_List_spec_true spec) Ht), IH.
      rewrite filter_cons_True by done. rewrite fmap_cons. cbn [length fst].
      rewrite <- app_assoc. simpl. do 2 f_equal. lia.
    + rewrite (proj2 (is_List_spec_false spec) Hn), IH.
      by rewrite filter_cons_False by done.
Qed.

Lemma Convert_loop_spec items changes :
  Convert.loop items changes
  = (rewritten <$> items, changes + length (filter tagged_item items)).
Proof.
  revert changes.
  induction items as [|[name spec] items IH]; intros changes.
  - simpl. by rewrite Nat.add_0_r.
  - cbn [Convert.loop]. rewrite fmap_cons. unfold rewritten at 1. cbn [fst snd].
    destruct (decide (tagged_List spec)) as [Ht|Hn].
    + rewrite (proj2 (is_List_spec_true spec) Ht), IH.
      rewrite filter_cons_True by done. cbn [length]. f_equal. lia.
    + rewrite (proj2 (is_List_spec_false spec) Hn), IH.
      by rewrite filter_cons_False by done.
Qed.

Lemma ensure_structure_put_back d i feats' :
  ensure_structure (JObject feats') (put_back d i feats') = Ok (put_back d i feats').
Proof.
  unfold ensure_structure, dict_setdefault, put_back.
  rewrite dict_get_set_eq, dict_get_set_eq. by rewrite dict_set_set.
Qed.

Lemma Fix_convert_shape d i feats :
  dict_get (py_str "info") d = Some (JObject i) →
  dict_get (py_str "features") i = Some (JObject feats) →
  Fix.convert_list_to_sequence (JObject d)
  = Ok (Fix.Tuple3 (JObject (put_back d i (rewritten <$> feats)))
          (length (filter tagged_item feats))
          (fst <$> filter tagged_item feats)).
Proof.
  intros Hi Hf. unfold Fix.convert_list_to_sequence. rewrite Hi.
  assert (truthy (JObject i) = true) as ->.
  { destruct i; [done|]. done. }
  rewrite Hf, Fix_loop_spec. cbn [Nat.add app].
  fold (put_back d i (rewritten <$> feats)).
  case_bool_decide; [done|].
  by rewrite ensure_structure_put_back.
Qed.

Lemma Convert_convert_shape d i feats :
  dict_get (py_str "info") d = Some (JObject i) →
  dict_get (py_str "features") i = Some (JObject feats) →
  Convert.convert_list_to_sequence (JObject d)
  = Ok (JObject (put_back d i (rewritten <$> feats)),
        length (filter tagged_item feats)).
Proof.
  intros Hi Hf. unfold Convert.convert_list_to_sequence. rewrite Hi.
  assert (truthy (JObject i) = true) as ->.
  { destruct i; [done|]. done. }
  rewrite Hf, Convert_loop_spec. cbn [Nat.add].
  fold (put_back d i (rewritten <$> feats)).
  case_bool_decide; [done|].
  by rewrite ensure_structure_put_back.
Qed.

(** C1: for a parsed document with an [info.features] object, the rewrite
    returns the document in which exactly the entries of the feature map
    that are records with [_type] equal to ["List"] have [_type] set to
    ["Sequence"]; the change count is their number and the recorded names
    are their names, in order.  Every other entry, every other field of a
    changed entry, every other key of [info] and every other key of the
    document is as before, and no key moves.  The script without the list
    of names returns the same document and count. *)
Theorem C1_rewrite_exactly_List_entries (d i feats : dict) :
  dict_get (py_str "info") d = Some (JObject i) →
  dict_get (py_str "features") i = Some (JObject feats) →
  ∃ d' i' feats' : dict,
    Fix.convert_list_to_sequence (JObject d)
    = Ok (Fix.Tuple3 (JObject d')
            (length (filter tagged_item feats))
            (fst <$> filter tagged_item feats))
    ∧ Convert.convert_list_to_sequence (JObject d)
      = Ok (JObject d', length (filter tagged_item feats))
    ∧ dict_keys d' = dict_keys d
    ∧ (∀ k, k ≠ py_str "info" → dict_get k d' = dict_get k d)
    ∧ dict_get (py_str "info") d' = Some (JObject i')
    ∧ dict_keys i' = dict_keys i
    ∧ (∀ k, k ≠ py_str "features" → dict_get k i' = dict_get k i)
    ∧ dict_get (py_str "features") i' = Some (JObject feats')
    ∧ Forall2 (λ item item',
                 item'.1 = item.1
                 ∧ (tagged_List item.2 → retagged item.2 item'.2)
                 ∧ (¬ tagged_List item.2 → item'.2 = item.2))
        feats feats'.
Proof.
  intros Hi Hf.
  exists (put_back d i (rewritten <$> feats)),
         (dict_set (py_str "features") (JObject (rewritten <$> feats)) i),
         (rewritten <$> feats).
  split_and!.
  - by apply Fix_convert_shape.
  - by apply Convert_convert_shape.
  - apply dict_keys_set. by rewrite Hi.
  - intros k Hk. by apply dict_get_set_ne.
  - apply dict_get_set_eq.
  - apply dict_keys_set. by rewrite Hf.
  - intros k Hk. by apply dict_get_set_ne.
  - apply dict_get_set_eq.
  - apply Forall2_fmap_r, Forall_Forall2_diag, Forall_forall.
    intros [name spec] _. unfold rewritten. cbn [fst snd].
    split_and!; [done | |].
    + intros Ht. rewrite decide_True by done. by apply retag_retagged.
    + intros Hn. by rewrite decide_False.
Qed.

Lemma C1_witness :
  let feats := Sample.feats_a_b in
  let i := [(py_str "features", JObject feats)] in
  let d := [(py_str "info", JObject i)] in
  ∃ d' i' feats' : dict,
    Fix.convert_list_to_sequence (JObject d)
    = Ok (Fix.Tuple3 (JObject d') 1 [py_str "a"])
    ∧ Convert.convert_list_to_sequence (JObject d) = Ok (JObject d', 1)
    ∧ dict_keys d' = dict_keys d
    ∧ (∀ k, k ≠ py_str "info" → dict_get k d' = dict_get k d)
    ∧ dict_get (py_str "info") d' = Some (JObject i')
    ∧ dict_keys i' = dict_keys i
    ∧ (∀ k, k ≠ py_str "features" → dict_get k i' = dict_get k i)
    ∧ dict_get (py_str "features") i' = Some (JObject feats')
    ∧ Forall2 (λ item item',
                 item'.1 = item.1
                 ∧ (tagged_List item.2 → retagged item.2 item'.2)
                 ∧ (¬ tagged_List item.2 → item'.2 = item.2))
        feats feats'.
Proof.
  intros feats i d.
  apply (C1_rewrite_exactly_List_entries d i feats); reflexivity.
Defined.

(** A [List] tag below the top level of the feature map is not an entry of
    the map: it stays. *)
Example nested_List_is_kept :
  let feats := [(py_str "a", JObject [(py_str "_type", JString (py_str "Sequence"));
                                      (py_str "feature", Sample.typed "List")])] in
  Fix.convert_list_to_sequence (Sample.document feats)
  = Ok (Fix.Tuple3 (Sample.document feats) 0 []).
Proof. reflexivity. Qed.

(** The two ways [convert_list_to_sequence] returns. *)
Lemma Fix_convert_cases hf r :
  Fix.convert_list_to_sequence hf = Ok r →
  r = Fix.Tuple2 hf 0
  ∨ ∃ d i feats,
      hf = JObject d
      ∧ dict_get (py_str "info") d = Some (JObject i)
      ∧ dict_get (py_str "features") i = Some (JObject feats)
      ∧ r = Fix.Tuple3 (JObject (put_back d i (rewritten <$> feats)))
              (length (filter tagged_item feats))
              (fst <$> filter tagged_item feats).
Proof.
  intros Hr.
  destruct hf as [| | | | | |d]; try (left; by injection Hr as <-).
  destruct (dict_get (py_str "info") d) as [v|] eqn:Hi.
  - destruct v as [| | | | | |i].
    7: { destruct (dict_get (py_str "features") i) as [[| | | | | |feats]|] eqn:Hf.
         7: { right. exists d, i, feats. split_and!; try done.
              rewrite (Fix_convert_shape d i feats Hi Hf) in Hr. by injection Hr as <-. }
         all: left; unfold Fix.convert_list_to_sequence in Hr; rewrite Hi in Hr;
           destruct (truthy (JObject i)); [rewrite Hf in Hr|]; by injection Hr as <-. }
    all: left; unfold Fix.convert_list_to_sequence in Hr; rewrite Hi in Hr;
      match type of Hr with context [truthy ?v] => destruct (truthy v) end;
      first [discriminate Hr | by injection Hr as <-].
  - left. unfold Fix.convert_list_to_sequence in Hr. rewrite Hi in Hr.
    by injection Hr as <-.
Qed.

Lemma Convert_convert_cases hf updated n :
  Convert.convert_list_to_sequence hf = Ok (updated, n) →
  (updated = hf ∧ n = 0)
  ∨ ∃ d i feats,
      hf = JObject d
      ∧ dict_get (py_str "info") d = Some (JObject i)
      ∧ dict_get (py_str "features") i = Some (JObject feats)
      ∧ updated = JObject (put_back d i (rewritten <$> feats))
      ∧ n = length (filter tagged_item feats).
Proof.
  intros Hr.
  destruct hf as [| | | | | |d]; try (left; by injection Hr as <- <-).
  destruct (dict_get (py_str "info") d) as [v|] eqn:Hi.
  - destruct v as [| | | | | |i].
    7: { destruct (dict_get (py_str "features") i) as [[| | | | | |feats]|] eqn:Hf.
         7: { right. exists d, i, feats. split_and!; try done;
              rewrite (Convert_convert_shape d i feats Hi Hf) in Hr;
              by injection Hr as <- <-. }
         all: left; unfold Convert.convert_list_to_sequence in Hr; rewrite Hi in Hr;
           destruct (truthy (JObject i)); [rewrite Hf in Hr|]; by injection Hr as <- <-. }
    all: left; unfold Convert.convert_list_to_sequence in Hr; rewrite Hi in Hr;
      match type of Hr with context [truthy ?v] => destruct (truthy v) end;
      first [discriminate Hr | by injection Hr as <- <-].
  - left. unfold Convert.convert_list_to_sequence in Hr. rewrite Hi in Hr.
    by injection Hr as <- <-.
Qed.

Lemma rewritten_not_tagged item : ¬ tagged_item (rewritten item).
Proof.
  destruct item as [name spec]. unfold tagged_item, rewritten. cbn [fst snd].
  destruct (decide (tagged_List spec)) as [Ht|Hn]; [|done].
  destruct (retag_not_tagged spec); done.
Qed.

Lemma filter_tagged_rewritten feats : filter tagged_item (rewritten <$> feats) = [].
Proof.
  induction feats as [|item feats IH]; [done|].
  rewrite fmap_cons, filter_cons_False; [done | apply rewritten_not_tagged].
Qed.

Lemma rewritten_id feats : filter tagged_item feats = [] → rewritten <$> feats = feats.
Proof.
  induction feats as [|[name spec] feats IH]; [done|].
  rewrite fmap_cons. unfold rewritten at 1, tagged_item at 1. cbn [fst snd].
  destruct (decide (tagged_List spec)) as [Ht|Hn].
  - by rewrite filter_cons_True.
  - rewrite filter_cons_False by done. intros Hnil. by rewrite IH.
Qed.

Lemma put_back_same d i feats :
  dict_get (py_str "info") d = Some (JObject i) →
  dict_get (py_str "features") i = Some (JObject feats) →
  put_back d i feats = d.
Proof.
  intros Hi Hf. unfold put_back.
  rewrite (dict_set_id _ _ i Hf). by apply dict_set_id.
Qed.

Lemma put_back_put_back d i feats' :
  put_back (put_back d i feats')
    (dict_set (py_str "features") (JObject feats') i) feats'
  = put_back d i feats'.
Proof. unfold put_back. by rewrite !dict_set_set. Qed.

(** C5: the rewrite is idempotent.  Applied to the structure a previous
    application returned, it returns that structure again with change
    count 0; and an application that reports 0 changes returned a structure
    equal to its input.  Both scripts. *)
Theorem C5_rewrite_idempotent (hf : json) :
  (∀ r, Fix.convert_list_to_sequence hf = Ok r →
        (∃ r', Fix.convert_list_to_sequence (returned_hf r) = Ok r'
               ∧ returned_changes r' = 0
               ∧ returned_hf r' = returned_hf r)
        ∧ (returned_changes r = 0 → returned_hf r = hf))
  ∧ (∀ updated n, Convert.convert_list_to_sequence hf = Ok (updated, n) →
        Convert.convert_list_to_sequence updated = Ok (updated, 0)
        ∧ (n = 0 → updated = hf)).
Proof.
  split.
  - intros r Hr.
    destruct (Fix_convert_cases hf r Hr) as [->|(d & i & feats & -> & Hi & Hf & ->)].
    + cbn [returned_hf returned_changes]. split; [|done]. by exists (Fix.Tuple2 hf 0).
    + cbn [returned_hf returned_changes]. split.
      * eexists. split.
        { apply Fix_convert_shape; unfold put_back; apply dict_get_set_eq. }
        rewrite filter_tagged_rewritten. cbn [returned_hf returned_changes length].
        split; [done|].
        rewrite (rewritten_id (rewritten <$> feats)) by apply filter_tagged_rewritten.
        by rewrite put_back_put_back.
      * intros Hz%length_zero_iff_nil. by rewrite rewritten_id, put_back_same.
  - intros updated n Hr.
    destruct (Convert_convert_cases hf updated n Hr)
      as [[-> ->]|(d & i & feats & -> & Hi & Hf & -> & ->)].
    + done.
    + split.
      * rewrite (Convert_convert_shape (put_back d i (rewritten <$> feats))
                   (dict_set (py_str "features") (JObject (rewritten <$> feats)) i)
                   (rewritten <$> feats));
          [| unfold put_back; apply dict_get_set_eq | apply dict_get_set_eq].
        rewrite filter_tagged_rewritten. cbn [length].
        rewrite (rewritten_id (rewritten <$> feats)) by apply filter_tagged_rewritten.
        by rewrite put_back_put_back.
      * intros Hz%length_zero_iff_nil. by rewrite rewritten_id, put_back_same.
Qed.

Lemma C5_witness :
  (∃ r', Fix.convert_list_to_sequence (Sample.document Sample.feats_a_b_fixed) = Ok r'
         ∧ returned_changes r' = 0
         ∧ returned_hf r' = Sample.document Sample.feats_a_b_fixed)
  ∧ Convert.convert_list_to_sequence (Sample.document Sample.feats_a_b_fixed)
    = Ok (Sample.document Sample.feats_a_b_fixed, 0).
Proof.
  pose proof (C5_rewrite_idempotent (Sample.document Sample.feats_a_b)) as [HF HC].
  split.
  - exact (proj1 (HF (Fix.Tuple3 (Sample.document Sample.feats_a_b_fixed) 1 [py_str "a"])
                    eq_refl)).
  - exact (proj1 (HC (Sample.document Sample.feats_a_b_fixed) 1 eq_refl)).
Defined.

(** ** Inputs without a feature map *)

(** Where the document is no record, or has no [info.features] record, the
    rewrite of the one-pass script either returns a pair, the input with
    count 0, or raises [AttributeError], when [info] is a true value that
    is not a record. *)
Lemma Fix_convert_without_features hf :
  (∀ d i feats, hf = JObject d → dict_get (py_str "info") d = Some (JObject i) →
                dict_get (py_str "features") i = Some (JObject feats) → False) →
  Fix.convert_list_to_sequence hf = Ok (Fix.Tuple2 hf 0)
  ∨ Fix.convert_list_to_sequence hf = Raise AttributeError.
Proof.
  intros Hno.
  destruct (Fix.convert_list_to_sequence hf) as [r|ex] eqn:Hr.
  - left. destruct (Fix_convert_cases hf r Hr) as [->|(d & i & feats & -> & Hi & Hf & _)];
      [done|]. destruct (Hno d i feats eq_refl Hi Hf).
  - right. unfold Fix.convert_list_to_sequence in Hr.
    destruct hf as [| | | | | |d]; try discriminate.
    destruct (match dict_get (py_str "info") d with
              | Some v => if truthy v then v else JObject []
              | None => JObject []
              end) as [| | | | | |i]; try (by injection Hr as <-).
    destruct (dict_get (py_str "features") i) as [[| | | | | |feats]|];
      try discriminate.
    destruct (Fix.loop feats 0 []) as [[feats' changes] names].
    case_bool_decide; [discriminate|].
    unfold ensure_structure, dict_setdefault in Hr.
    rewrite dict_get_set_eq, dict_get_set_eq in Hr. discriminate.
Qed.

(** C7: on a document without a feature map, here the empty record, the
    rewrite of the one-pass script returns the pair of the input and 0, not
    a triple, and the three-name unpacking of [main] raises [ValueError], so
    that a file whose metadata is [{}] ends the run; on a document whose
    [info] is a number the rewrite raises [AttributeError]. *)
Theorem C7_early_exit_returns_a_pair :
  Fix.convert_list_to_sequence (JObject []) = Ok (Fix.Tuple2 (JObject []) 0)
  ∧ Fix.unpack3 (Fix.Tuple2 (JObject []) 0) = Raise ValueError
  ∧ (@Fix.body SampleFiles.loads (SampleFiles.in_place Fix.prefer_auto)
       SampleFiles.root SampleFiles.zero SampleFiles.shard false SampleFiles.calm
       (SampleFiles.disk
          (SampleFiles.file_with (Some (SampleFiles.blob (JObject []))) None))).2
    = Raise ValueError
  ∧ Fix.convert_list_to_sequence (JArray []) = Ok (Fix.Tuple2 (JArray []) 0)
  ∧ Fix.convert_list_to_sequence (JObject [(py_str "info", JInt 1)])
    = Raise AttributeError.
Proof. split_and!; vm_compute; reflexivity. Qed.

(** ** Commands *)

Ltac io_unfold :=
  unfold mbind, io_bind, mret, io_ret, lift, throw, try_except in *.

Lemma parent_app_singleton (d : path) (n : string) : parent (d ++ [n]) = d.
Proof.
  unfold parent. rewrite length_app. cbn [length].
  replace (length d + 1 - 1) with (length d) by lia.
  by rewrite take_app_length.
Qed.


Lemma open_parquet_eq (p : path) (σ : fs) (f : parquet_file) :
  σ !! p = Some (Parquet f) → open_parquet p σ = (σ, Ok f).
Proof. intros Hp. unfold open_parquet. by rewrite Hp. Qed.

Lemma Fix_read_hf_metadata_eq `{JsonLoads} (p : path) (σ : fs) (f : parquet_file) :
  σ !! p = Some (Parquet f) →
  Fix.read_hf_metadata p σ
  = (σ, Ok (Fix.select_source (or_empty (file_metadata f) !! HUGGINGFACE)
              (or_empty (schema_metadata f) !! HUGGINGFACE))).
Proof.
  intros Hp. unfold Fix.read_hf_metadata, read_metadata, read_schema. io_unfold.
  rewrite (open_parquet_eq p σ f Hp). cbn. by rewrite (open_parquet_eq p σ f Hp).
Qed.



Lemma blob_truthy_Some (b : bytes) : b ≠ [] → blob_truthy (Some b) = true.
Proof. by destruct b. Qed.

Lemma disk_lookup_shard (f : parquet_file) :
  SampleFiles.disk f !! SampleFiles.shard = Some (Parquet f).
Proof.
  unfold SampleFiles.disk.
  rewrite lookup_insert_ne by discriminate.
  rewrite lookup_insert_ne by discriminate.
  apply lookup_singleton_eq.
Qed.


(** ** The needs-write decision *)








(** ** The choice of the source *)

Lemma Fix_body_no_usable `{JsonLoads} (a : Fix.args) (root p rel : path)
    (c : Fix.counters) (e : env) (σ : fs) (f : parquet_file) :
  let hf_meta := Fix.select_source (or_empty (file_metadata f) !! HUGGINGFACE)
                   (or_empty (schema_metadata f) !! HUGGINGFACE) in
  relative_to p root = Ok rel →
  has_parquet_suffix p = true →
  under_limit a c →
  σ !! p = Some (Parquet f) →
  (Fix.hf_source hf_meta = Fix.source_none ∨ is_None (Fix.hf_json hf_meta) = true) →
  (Fix.out_root a = None →
   Fix.body a root c p false e σ = (σ, Ok (seen c, Some (Fix.skip_no_hf_meta p))))
  ∧ (∀ o, Fix.out_root a = Some o → Fix.apply a = false →
     Fix.body a root c p false e σ
     = (σ, Ok (seen c, Some (Fix.copy_no_hf_meta false p (o ++ rel))))).
Proof.
  intros hf_meta Hrel Hsuf Hlim Hp Hno.
  assert (match Fix.limit a with
          | Some l => bool_decide (l ≤ Z.of_nat (Fix.seen_parquet c))%Z
          | None => false
          end = false) as Hl.
  { destruct (Fix.limit a) as [l|] eqn:El; [|done].
    apply bool_decide_eq_false. specialize (Hlim l El). lia. }
  assert (match Fix.hf_source hf_meta with
          | Fix.source_none => true
          | _ => is_None (Fix.hf_json hf_meta)
          end = true) as Hu.
  { destruct Hno as [-> | Hn]; [done|]. by destruct (Fix.hf_source hf_meta). }
  split; [intros Hout | intros o Hout Happly];
    unfold Fix.body; io_unfold; rewrite Hrel, Hsuf; cbn [negb Fix.seen_parquet];
    rewrite Hl, (Fix_read_hf_metadata_eq p σ f Hp); fold hf_meta;
    rewrite Hu, Hout; [done|]. by rewrite Happly.
Qed.




(** ** Empty blobs *)




Lemma read_metadata_eq (p : path) (σ : fs) (f : parquet_file) :
  σ !! p = Some (Parquet f) → read_metadata p σ = (σ, Ok (file_metadata f)).
Proof. intros Hp. unfold read_metadata. io_unfold. by rewrite (open_parquet_eq p σ f Hp). Qed.

Lemma read_schema_eq (p : path) (σ : fs) (f : parquet_file) :
  σ !! p = Some (Parquet f) → read_schema p σ = (σ, Ok (schema_metadata f)).
Proof. intros Hp. unfold read_schema. io_unfold. by rewrite (open_parquet_eq p σ f Hp). Qed.

Lemma read_table_eq (p : path) (σ : fs) (f : parquet_file) :
  σ !! p = Some (Parquet f) →
  read_table p σ
  = (σ, Ok {| table_metadata := schema_metadata f; table_rows := rows f |}).
Proof. intros Hp. unfold read_table. io_unfold. by rewrite (open_parquet_eq p σ f Hp). Qed.

Lemma Convert_load_hf_metadata_eq `{JsonLoads} (p : path) (σ : fs) (f : parquet_file) :
  σ !! p = Some (Parquet f) →
  Convert.load_hf_metadata p σ
  = (σ, Ok (if blob_truthy (file_blob f)
            then default JNull (json_loads (default [] (file_blob f)))
            else JNull,
            or_empty (file_metadata f))).
Proof.
  intros Hp. unfold Convert.load_hf_metadata. io_unfold.
  rewrite (read_metadata_eq p σ f Hp). fold (file_blob f).
  destruct (blob_truthy (file_blob f)); cbn [negb]; [|done].
  by destruct (json_loads (default [] (file_blob f))).
Qed.






(** ** Writing back *)

(** Either the block returns and [src] holds the new table, every other
    path as before and no temporary file left; or it raises, and then [src]
    and every path but the temporary one are as before, the temporary file
    being removed unless its removal failed too. *)
Lemma write_then_replace_atomic (e : env) (src : path) (new_table : table)
    (n : node) (σ σ' : fs) (r : result unit) :
  σ !! src = Some n →
  write_then_replace e src new_table σ = (σ', r) →
  (r = Ok () ∧ σ' = <[src := Parquet (file_of_table new_table)]> σ)
  ∨ (∃ ex, r = Raise ex
           ∧ σ' !! src = Some n
           ∧ (∀ q, q ≠ parent src ++ [tmp_name e] → σ' !! q = σ !! q)
           ∧ (on_unlink e = true → σ' = σ)).
Proof.
  intros Hsrc Hrun. unfold write_then_replace in Hrun. io_unfold.
  unfold NamedTemporaryFile in Hrun.
  destruct (on_create e).
  2: { injection Hrun as <- <-. right. by exists OSError. }
  destruct (σ !! (parent src ++ [tmp_name e])) eqn:Htmp.
  { injection Hrun as <- <-. right. by exists OSError. }
  assert (parent src ++ [tmp_name e] ≠ src) as Hne by congruence.
  set (tmp := parent src ++ [tmp_name e]) in *.
  assert (∀ m : fs, m !! tmp = None → delete tmp m = m) as Hdel
    by (intros m Hm; by apply delete_id).
  unfold write_table, os_replace, unlink in Hrun.
  destruct (on_write_table e) as [| |garbage], (on_replace e), (on_unlink e);
    rewrite ?lookup_insert_eq in Hrun; injection Hrun as <- <-;
    first
      [ left; split; [done|];
        apply map_eq; intros q;
        destruct (decide (q = tmp)) as [->|Hq];
        [ rewrite lookup_delete_eq, lookup_insert_ne by done; by rewrite Htmp
        | rewrite lookup_delete_ne by done;
          destruct (decide (q = src)) as [->|Hq'];
          [ by rewrite !lookup_insert_eq | by rewrite !lookup_insert_ne by done ] ]
      | right; exists OSError; split; [done|]; split_and!;
        [ rewrite ?lookup_delete_ne, ?lookup_insert_ne by done; done
        | intros q Hq; rewrite ?lookup_delete_ne, ?lookup_insert_ne by done; done
        | intros Hu; try discriminate Hu;
          rewrite ?delete_insert_eq; by rewrite ?Hdel ] ].
Qed.

Lemma Fix_write_in_place_is_block (e : env) (src : path) (hf_json : json)
    (f : parquet_file) (blob : bytes) (σ : fs) :
  σ !! src = Some (Parquet f) →
  dumps_utf8 hf_json = Ok blob →
  Fix.write_with_hf_metadata e src None hf_json σ
  = write_then_replace e src (with_hf_blob f blob) σ.
Proof.
  intros Hsrc Hblob. unfold Fix.write_with_hf_metadata, write_then_replace. io_unfold.
  rewrite (read_table_eq src σ f Hsrc), Hblob.
  by rewrite bool_decide_eq_true_2 by (by left).
Qed.

Lemma Convert_rewrite_is_block (e : env) (src : path) (new_metadata : metadata)
    (f : parquet_file) (σ : fs) :
  σ !! src = Some (Parquet f) →
  Convert.rewrite_parquet_with_metadata e src new_metadata σ
  = write_then_replace e src
      (replace_schema_metadata
         {| table_metadata := schema_metadata f; table_rows := rows f |}
         (Convert.update (or_empty (schema_metadata f)) new_metadata)) σ.
Proof.
  intros Hsrc. unfold Convert.rewrite_parquet_with_metadata, write_then_replace. io_unfold.
  by rewrite (read_table_eq src σ f Hsrc).
Qed.

(** Whatever the environment does, a call of [write_with_hf_metadata] that
    returns has put the new table at its target, and the schema metadata
    of that table differs from the old one under the [huggingface] key
    only. *)
Lemma Fix_write_preserves_other_keys (e : env) (src : path) (dest : option path)
    (hf_json : json) (f : parquet_file) (σ σ' : fs) :
  σ !! src = Some (Parquet f) →
  Fix.write_with_hf_metadata e src dest hf_json σ = (σ', Ok ()) →
  ∃ blob,
    dumps_utf8 hf_json = Ok blob
    ∧ σ' !! default src dest = Some (Parquet (file_of_table (with_hf_blob f blob)))
    ∧ schema_blob (file_of_table (with_hf_blob f blob)) = Some blob
    ∧ ∀ k, k ≠ HUGGINGFACE →
        or_empty (schema_metadata (file_of_table (with_hf_blob f blob))) !! k
        = or_empty (schema_metadata f) !! k.
Proof.
  intros Hsrc Hrun.
  unfold Fix.write_with_hf_metadata in Hrun. io_unfold.
  rewrite (read_table_eq src σ f Hsrc) in Hrun.
  destruct (dumps_utf8 hf_json) as [blob|ex] eqn:Hblob; [|discriminate].
  exists blob. fold (with_hf_blob f blob) in Hrun.
  split; [done|]. split; [|split].
  - case_bool_decide as Hd.
    + assert (default src dest = src) as -> by (destruct Hd as [->| ->]; done).
      unfold NamedTemporaryFile in Hrun.
      destruct (on_create e); [|discriminate].
      destruct (σ !! (parent src ++ [tmp_name e])) eqn:Htmp; [discriminate|].
      assert (parent src ++ [tmp_name e] ≠ src) as Hne by congruence.
      unfold write_table, os_replace, unlink in Hrun.
      destruct (on_write_table e), (on_replace e), (on_unlink e);
        rewrite ?lookup_insert_eq in Hrun; try discriminate;
        injection Hrun as <-;
        by rewrite lookup_delete_ne, lookup_insert_eq.
    + destruct dest as [d|]; [|by destruct Hd; left]. cbn [from_option id] in *.
      destruct (mkdir e (parent d) σ) as [σm [[]|ex]]; [|discriminate].
      unfold write_table in Hrun. destruct (on_write_table e); try discriminate.
      injection Hrun as <-. apply lookup_insert_eq.
  - unfold schema_blob, file_of_table, with_hf_blob, replace_schema_metadata, or_empty.
    cbn. apply lookup_insert_eq.
  - intros k Hk.
    unfold file_of_table, with_hf_blob, replace_schema_metadata.
    cbn [schema_metadata table_metadata]. unfold or_empty at 1. cbn [from_option id].
    by rewrite lookup_insert_ne.
Qed.

(** C2: [normalize_file] writes the new table over the original path
    itself.  When [pq.write_table] fails part-way the call raises and the
    original file holds the bytes written so far; the in-place writer of
    the one-pass script, in the same environment, leaves the original as
    it was. *)
Theorem C2_normalize_overwrites_original :
  let f := SampleFiles.file_with
             (Some (SampleFiles.blob (Sample.document Sample.feats_a_b_fixed)))
             (Some (SampleFiles.blob (Sample.document Sample.feats_a_b))) in
  let σ := SampleFiles.disk f in
  let run := @Normalize.normalize_file SampleFiles.loads SampleFiles.torn
               SampleFiles.shard false σ in
  let sibling := Fix.write_with_hf_metadata SampleFiles.torn SampleFiles.shard None
                   (Sample.document Sample.feats_a_b_fixed) σ in
  σ !! SampleFiles.shard = Some (Parquet f)
  ∧ run.2 = Raise OSError
  ∧ run.1 !! SampleFiles.shard = Some (Other (py_bytes "PAR1"))
  ∧ sibling.2 = Raise OSError
  ∧ sibling.1 !! SampleFiles.shard = Some (Parquet f).
Proof.
  intros f σ run sibling.
  pose proof (disk_lookup_shard f) as Hp. fold σ in Hp.
  split_and!.
  - exact Hp.
  - vm_compute; reflexivity.
  - vm_compute; reflexivity.
  - vm_compute; reflexivity.
  - destruct sibling as [σ' r] eqn:Hs. subst sibling.
    assert (dumps_utf8 (Sample.document Sample.feats_a_b_fixed)
            = Ok (SampleFiles.blob (Sample.document Sample.feats_a_b_fixed)))
      as Hblob by (vm_compute; reflexivity).
    rewrite (Fix_write_in_place_is_block _ _ _ f _ σ Hp Hblob) in Hs.
    destruct (write_then_replace_atomic _ _ _ _ _ _ _ Hp Hs)
      as [[-> _]|(ex & _ & Hsame & _)]; [|exact Hsame].
    exfalso. apply (f_equal snd) in Hs. vm_compute in Hs. discriminate Hs.
Qed.


(** ** The serialisation *)






(** ** Mirror mode *)

#[global] Instance changed_within_refl o : Reflexive (changed_within o).
Proof. intros σ q. by left. Qed.

#[global] Instance changed_within_trans o : Transitive (changed_within o).
Proof.
  intros σ1 σ2 σ3 H12 H23 q.
  destruct (H12 q) as [E1|[?|(Hq & Hn1 & Hd1)]]; [|by right; left|].
  - destruct (H23 q) as [E2|[?|(Hq & Hn2 & Hd2)]]; [left; congruence | by right; left |].
    right; right. split_and!; [done | congruence | done].
  - destruct (H23 q) as [E2|[?|(_ & Hn2 & _)]]; [|by right; left | congruence].
    right; right. split_and!; [done | done | congruence].
Qed.

Section Respects.
Context (R : fs → fs → Prop) `{!Reflexive R} `{!Transitive R}.

Lemma respects_ret {A : Type} (a : A) : respects R (mret a).
Proof. intros σ σ' r [= <- _]. reflexivity. Qed.

Lemma respects_lift {A : Type} (x : result A) : respects R (lift x).
Proof. intros σ σ' r [= <- _]. reflexivity. Qed.

Lemma respects_throw {A : Type} (ex : exn) : respects R (@throw A ex).
Proof. intros σ σ' r [= <- _]. reflexivity. Qed.

Lemma respects_bind {A B : Type} (m : io A) (k : A → io B) :
  respects R m → (∀ a, respects R (k a)) → respects R (m ≫= k).
Proof.
  intros Hm Hk σ σ' r Hrun. unfold mbind, io_bind in Hrun.
  destruct (m σ) as [σ1 [a|ex]] eqn:E.
  - transitivity σ1; [by eapply Hm | by eapply Hk].
  - injection Hrun as <- _. by eapply Hm.
Qed.

Lemma respects_bind_lift {A B : Type} (x : result A) (k : A → io B) :
  (∀ a, x = Ok a → respects R (k a)) → respects R (lift x ≫= k).
Proof.
  intros Hk σ σ' r Hrun. unfold mbind, io_bind, lift in Hrun.
  destruct x as [a|ex].
  - by eapply Hk.
  - injection Hrun as <- _. reflexivity.
Qed.

Lemma respects_try_except {A : Type} (m : io A) (h : exn → io A) :
  respects R m → (∀ ex, respects R (h ex)) → respects R (try_except m h).
Proof.
  intros Hm Hh σ σ' r Hrun. unfold try_except in Hrun.
  destruct (m σ) as [σ1 [a|ex]] eqn:E.
  - injection Hrun as <- _. by eapply Hm.
  - transitivity σ1; [by eapply Hm | by eapply Hh].
Qed.

Lemma respects_open_parquet (p : path) : respects R (open_parquet p).
Proof.
  intros σ σ' r Hrun. unfold open_parquet in Hrun.
  destruct (σ !! p) as [[]|]; injection Hrun as <- _; reflexivity.
Qed.

Lemma respects_read_metadata (p : path) : respects R (read_metadata p).
Proof. apply respects_bind; [apply respects_open_parquet | intros; apply respects_ret]. Qed.

Lemma respects_read_schema (p : path) : respects R (read_schema p).
Proof. apply respects_bind; [apply respects_open_parquet | intros; apply respects_ret]. Qed.

Lemma respects_read_table (p : path) : respects R (read_table p).
Proof. apply respects_bind; [apply respects_open_parquet | intros; apply respects_ret]. Qed.
End Respects.

Lemma changed_within_insert (o q : path) (n : node) (σ : fs) :
  o `prefix_of` q → changed_within o σ (<[q := n]> σ).
Proof.
  intros Hq q'. destruct (decide (q' = q)) as [->|Hne]; [by right; left|].
  left. by rewrite lookup_insert_ne.
Qed.

Lemma respects_write_table (o : path) (e : env) (t : table) (d : path) :
  o `prefix_of` d → respects (changed_within o) (write_table e t d).
Proof.
  intros Hd σ σ' r Hrun. unfold write_table in Hrun.
  destruct (on_write_table e); injection Hrun as <- _;
    first [reflexivity | by apply changed_within_insert].
Qed.

Lemma respects_copy2 (o : path) (e : env) (a d : path) :
  o `prefix_of` d → respects (changed_within o) (copy2 e a d).
Proof.
  intros Hd σ σ' r Hrun. unfold copy2 in Hrun.
  destruct (σ !! a) as [[| |]|]; try (injection Hrun as <- _; reflexivity).
  all: match type of Hrun with
       | context [bool_decide (?t = ?s)] =>
           assert (o `prefix_of` t) as Ht
             by (destruct (σ !! d) as [[| |]|]; first [done | by apply prefix_app_r]);
           destruct (bool_decide (t = s))
       end;
    [injection Hrun as <- _; reflexivity|];
    destruct (on_copy e); injection Hrun as <- _;
    first [reflexivity | by apply changed_within_insert].
Qed.

Lemma respects_mkdir_one (o q : path) :
  (q `prefix_of` o ∨ o `prefix_of` q) →
  respects (changed_within o) (mkdir_one q).
Proof.
  intros Hq σ σ' r Hrun. unfold mkdir_one in Hrun.
  destruct (σ !! q) as [[| |]|] eqn:E; injection Hrun as <- _; try reflexivity.
  intros q'. destruct (decide (q' = q)) as [->|Hne].
  - destruct Hq as [Hq|Hq]; [|by right; left].
    right; right. by rewrite lookup_insert_eq.
  - left. by rewrite lookup_insert_ne.
Qed.

Lemma respects_mkdir_all (o : path) (qs : list path) :
  Forall (λ q, q `prefix_of` o ∨ o `prefix_of` q) qs →
  respects (changed_within o) (mkdir_all qs).
Proof.
  induction 1 as [|q qs Hq Hqs IH]; cbn [mkdir_all].
  - apply respects_ret; apply _.
  - apply respects_bind; try apply _; [by apply respects_mkdir_one | by intros].
Qed.

Lemma comparable_of_prefix (o x q d : path) :
  d `prefix_of` o ++ x → q `prefix_of` d → q `prefix_of` o ∨ o `prefix_of` q.
Proof.
  intros Hd Hq. apply (prefix_weak_total q o (o ++ x)).
  - by etransitivity.
  - by apply prefix_app_r.
Qed.

Lemma respects_mkdir (o x : path) (e : env) (d : path) :
  d `prefix_of` o ++ x → respects (changed_within o) (mkdir e d).
Proof.
  intros Hd.
  assert (Forall (λ q, q `prefix_of` o ∨ o `prefix_of` q) (ancestors_and_self d)) as Hall.
  { unfold ancestors_and_self. apply Forall_fmap, Forall_forall. intros k _. cbn.
    apply (comparable_of_prefix o x _ d Hd), prefix_take. }
  unfold mkdir. destruct (on_mkdir e) as [k|].
  - apply respects_bind; try apply _.
    + apply respects_mkdir_all. by apply Forall_take.
    + intros _. apply respects_throw; apply _.
  - by apply respects_mkdir_all.
Qed.

Lemma parent_prefix (p : path) : parent p `prefix_of` p.
Proof. apply prefix_take. Qed.

Lemma relative_to_app (p root rel : path) :
  relative_to p root = Ok rel → p = root ++ rel.
Proof.
  revert p. induction root as [|r root IH]; intros p Hrel.
  - destruct p; cbn in Hrel; by injection Hrel as <-.
  - destruct p as [|c p]; cbn in Hrel; [discriminate|].
    destruct (String.eqb r c) eqn:E; [|discriminate].
    apply String.eqb_eq in E as ->. cbn. f_equal. by apply IH.
Qed.

Ltac respects_step o :=
  lazymatch goal with
  | |- respects ?R (mret _) => apply (respects_ret R)
  | |- respects ?R (lift _ ≫= _) => apply (respects_bind_lift R); intros ? ?
  | |- respects ?R (lift _) => apply (respects_lift R)
  | |- respects ?R (throw _) => apply (respects_throw R)
  | |- respects ?R (read_table _) => apply (respects_read_table R)
  | |- respects _ (mkdir _ _) =>
      first [ apply (respects_mkdir o []); rewrite app_nil_r; reflexivity
            | eapply respects_mkdir; first [apply parent_prefix | reflexivity] ]
  | |- respects _ (write_table _ _ _) =>
      apply respects_write_table; by apply prefix_app_r
  | |- respects _ (copy2 _ _ _) =>
      apply respects_copy2; by apply prefix_app_r
  | |- respects ?R (_ ≫= _) => apply (respects_bind R); [| intros ?]
  | |- respects _ (if ?b then _ else _) => destruct b eqn:?
  | |- respects _ (match ?x with _ => _ end) => destruct x eqn:?
  end.

Lemma respects_Fix_read_hf_metadata `{JsonLoads} (R : fs → fs → Prop)
    `{!Reflexive R} `{!Transitive R} (p : path) :
  respects R (Fix.read_hf_metadata p).
Proof.
  unfold Fix.read_hf_metadata.
  apply (respects_bind R); [by apply respects_read_metadata | intros md].
  apply (respects_bind R); [by apply respects_read_schema | intros sc].
  by apply respects_ret.
Qed.

Lemma respects_Fix_write (o rel src : path) (e : env) (hf_json : json) :
  o ++ rel ≠ src →
  respects (changed_within o) (Fix.write_with_hf_metadata e src (Some (o ++ rel)) hf_json).
Proof.
  intros Hne. unfold Fix.write_with_hf_metadata.
  respects_step o; [respects_step o|].
  respects_step o.
  rewrite bool_decide_eq_false_2 by (intros [[=]|[=]]; done).
  cbn [from_option id].
  respects_step o; respects_step o.
Qed.

Lemma respects_Fix_body `{JsonLoads} (a : Fix.args) (root o : path) (c : Fix.counters)
    (p : path) (is_dir : bool) (e : env) :
  Fix.out_root a = Some o →
  o ≠ root →
  respects (changed_within o) (Fix.body a root c p is_dir e).
Proof.
  intros Hout Hsep. unfold Fix.body. rewrite Hout.
  apply (respects_bind_lift (changed_within o)). intros rel Hrel%relative_to_app.
  assert (o ++ rel ≠ p) as Hne.
  { rewrite Hrel. intros Heq%app_inv_tail. done. }
  repeat first
    [ apply (respects_Fix_read_hf_metadata (changed_within o))
    | by apply respects_Fix_write
    | respects_step o ].
Qed.

Lemma respects_Fix_main_loop `{JsonLoads} (a : Fix.args) (root o : path)
    (entries : list (path * bool * env)) (c : Fix.counters) :
  Fix.out_root a = Some o →
  o ≠ root →
  respects (changed_within o) (Fix.main_loop a root c entries).
Proof.
  intros Hout Hsep. revert c.
  induction entries as [|[[p is_dir] e] entries IH]; intros c; cbn [Fix.main_loop].
  - apply (respects_ret (changed_within o)).
  - apply (respects_bind (changed_within o)); [by apply respects_Fix_body | intros [c' line]].
    apply (respects_bind (changed_within o)); [apply IH | intros [c'' lines]].
    apply (respects_ret (changed_within o)).
Qed.

Lemma respects_Convert_load_hf_metadata `{JsonLoads} (R : fs → fs → Prop)
    `{!Reflexive R} `{!Transitive R} (p : path) :
  respects R (Convert.load_hf_metadata p).
Proof.
  unfold Convert.load_hf_metadata.
  apply (respects_bind R); [by apply respects_read_metadata | intros md].
  repeat respects_step (@nil string).
Qed.

Lemma respects_Convert_body `{JsonLoads} (a : Convert.args) (root o : path)
    (c : Convert.counters) (p : path) (is_dir : bool) (e : env) :
  Convert.out_root a = Some o →
  respects (changed_within o) (Convert.body a root c p is_dir e).
Proof.
  intros Hout. unfold Convert.body, Convert.copy_through. rewrite Hout.
  repeat first
    [ apply (respects_Convert_load_hf_metadata (changed_within o))
    | respects_step o ].
Qed.

Lemma respects_Convert_main_loop `{JsonLoads} (a : Convert.args) (root o : path)
    (entries : list (path * bool * env)) (c : Convert.counters) :
  Convert.out_root a = Some o →
  respects (changed_within o) (Convert.main_loop a root c entries).
Proof.
  intros Hout. revert c.
  induction entries as [|[[p is_dir] e] entries IH]; intros c; cbn [Convert.main_loop].
  - apply (respects_ret (changed_within o)).
  - apply (respects_bind (changed_within o)); [by apply respects_Convert_body | intros [c' line]].
    apply (respects_bind (changed_within o)); [apply IH | intros [c'' lines]].
    apply (respects_ret (changed_within o)).
Qed.

Lemma changed_within_source_untouched (root o : path) (σ σ' : fs) :
  separate root o → changed_within o σ σ' →
  ∀ q, root `prefix_of` q → σ' !! q = σ !! q.
Proof.
  intros [Hro Hor] Hch q Hq.
  destruct (Hch q) as [E|[Ho|(Hqo & _)]]; [done| |].
  - destruct (prefix_weak_total root o q Hq Ho); done.
  - destruct Hro. by etransitivity.
Qed.

(** C9, as the code has it: in mirror mode every path a run changes lies
    at or below the output root, but for directories that were missing
    above it; so when neither the source root nor the output root lies
    inside the other, every path under the source root holds after the run
    what it held before: nothing there is created, modified or deleted.
    Both scripts, with or without [--apply], whatever fails on the way. *)
Theorem C9_mirror_leaves_source_tree `{JsonLoads} (root o : path) (σ σ' : fs) :
  separate root o →
  (∀ a c entries r,
     Fix.out_root a = Some o →
     Fix.main_loop a root c entries σ = (σ', r) →
     changed_within o σ σ' ∧ ∀ q, root `prefix_of` q → σ' !! q = σ !! q)
  ∧ (∀ a c entries r,
       Convert.out_root a = Some o →
       Convert.main_loop a root c entries σ = (σ', r) →
       changed_within o σ σ' ∧ ∀ q, root `prefix_of` q → σ' !! q = σ !! q).
Proof.
  intros Hsep. split; intros a c entries r Hout Hrun.
  - assert (changed_within o σ σ') as Hch.
    { eapply (respects_Fix_main_loop a root o entries c Hout); [|exact Hrun].
      intros ->. by destruct Hsep as [[] _]. }
    split; [done|]. by eapply changed_within_source_untouched.
  - assert (changed_within o σ σ') as Hch
      by exact (respects_Convert_main_loop a root o entries c Hout _ _ _ Hrun).
    split; [done|]. by eapply changed_within_source_untouched.
Qed.

Lemma C9_witness :
  let σ := SampleFiles.disk
             (SampleFiles.file_with None
                (Some (SampleFiles.blob (Sample.document Sample.feats_a_b)))) in
  let run := @Fix.main_loop SampleFiles.loads SampleFiles.mirror SampleFiles.root
               SampleFiles.zero
               [(SampleFiles.root, true, SampleFiles.calm);
                (SampleFiles.shard, false, SampleFiles.calm)] σ in
  run.1 !! SampleFiles.shard = σ !! SampleFiles.shard.
Proof.
  intros σ run.
  assert (separate SampleFiles.root ["mirror"; "set"]%string) as Hsep
    by (split; intros [k Hk]; discriminate Hk).
  refine (proj2 (proj1 (@C9_mirror_leaves_source_tree SampleFiles.loads
                          SampleFiles.root ["mirror"; "set"]%string σ run.1 Hsep)
                  SampleFiles.mirror SampleFiles.zero _ run.2 eq_refl
                  (surjective_pairing run))
            SampleFiles.shard _).
  by exists ["shard.parquet"%string].
Defined.

(** C9 as stated fails: with [--out] equal to [--root] the output root is
    [root/set], distinct from the source root and inside it, and the copy
    of [notes.txt] is a new file under the source root. *)
Lemma C9_counterexample :
  let a := SampleFiles.mirror_onto_root in
  let q := ["data"; "set"; "set"; "notes.txt"]%string in
  let run := @Fix.main_loop SampleFiles.loads a SampleFiles.root SampleFiles.zero
               [(SampleFiles.notes, false, SampleFiles.calm)]
               SampleFiles.disk_with_notes in
  Fix.out_root a = Some ["data"; "set"; "set"]%string
  ∧ Fix.out_root a ≠ Some SampleFiles.root
  ∧ Fix.apply a = true
  ∧ SampleFiles.root `prefix_of` q
  ∧ SampleFiles.disk_with_notes !! q = None
  ∧ run.1 !! q = Some (Other (py_bytes "hello"))
  ∧ run.2 = Ok ({| Fix.seen_parquet := 0; Fix.affected_parquet := 0;
                   Fix.changed_entries := 0; Fix.copied_other := 1;
                   Fix.total_parquet := 0 |},
                [Fix.copy true SampleFiles.notes q]).
Proof.
  split_and!; try (vm_compute; reflexivity).
  - discriminate.
  - by exists ["set"; "notes.txt"]%string.
Qed.

(** * The rest of the scripts *)

(** A run with a known result. *)
Lemma run_result {A : Type} (run : fs * result A) (r : result A) :
  run.2 = r → run = (run.1, r).
Proof. intros <-. apply surjective_pairing. Qed.

(** ** The two copies of the rewrite *)

(** X1: The [convert_list_to_sequence] of the one-pass script and the one
    of the conversion script agree on every document: the same updated
    document and the same count when the first returns, the same exception
    when it raises. *)
Theorem X1_rewrite_scripts_agree (hf : json) :
  match Fix.convert_list_to_sequence hf with
  | Ok r =>
      Convert.convert_list_to_sequence hf = Ok (returned_hf r, returned_changes r)
  | Raise ex => Convert.convert_list_to_sequence hf = Raise ex
  end.
Proof.
  destruct (Fix.convert_list_to_sequence hf) as [r|ex] eqn:Hr.
  - destruct (Fix_convert_cases hf r Hr) as [->|(d & i & feats & -> & Hi & Hf & ->)].
    + cbn [returned_hf returned_changes].
      unfold Fix.convert_list_to_sequence in Hr.
      unfold Convert.convert_list_to_sequence.
      destruct hf as [| | | | | |d]; try done.
      destruct (match dict_get (py_str "info") d with
                | Some v => if truthy v then v else JObject []
                | None => JObject []
                end) as [| | | | | |i]; try done.
      destruct (dict_get (py_str "features") i) as [[| | | | | |feats]|]; try done.
      exfalso. destruct (Fix.loop feats 0 []) as [[feats' changes] names].
      case_bool_decide; [discriminate|].
      destruct (ensure_structure (JObject feats') _); discriminate.
    + cbn [returned_hf returned_changes]. by apply Convert_convert_shape.
  - unfold Fix.convert_list_to_sequence in Hr.
    unfold Convert.convert_list_to_sequence.
    destruct hf as [| | | | | |d]; try done.
    destruct (match dict_get (py_str "info") d with
              | Some v => if truthy v then v else JObject []
              | None => JObject []
              end) as [| | | | | |i]; try (by injection Hr as <-).
    destruct (dict_get (py_str "features") i) as [[| | | | | |feats]|]; try done.
    exfalso. destruct (Fix.loop feats 0 []) as [[feats' changes] names].
    case_bool_decide; [discriminate|].
    unfold ensure_structure, dict_setdefault in Hr.
    rewrite dict_get_set_eq, dict_get_set_eq in Hr. discriminate.
Qed.

(** ** Preferences *)

Lemma choose_json_file_is_auto `{JsonLoads} (rf rs : option bytes) :
  Fix.choose_json Fix.prefer_file (Fix.select_source rf rs)
  = Fix.choose_json Fix.prefer_auto (Fix.select_source rf rs).
Proof.
  unfold Fix.choose_json, Fix.select_source.
  destruct (blob_truthy rf) eqn:Ef; cbn [Fix.raw_file Fix.hf_json].
  - rewrite Ef. unfold Fix.loads_or_None. by destruct (json_loads (default [] rf)).
  - destruct (blob_truthy rs); cbn [Fix.raw_file Fix.hf_json]; [by rewrite Ef|done].
Qed.

(** X2: [--prefer file] never changes what a run does: for every entry,
    arguments, counters, environment and file system, the loop body behaves
    as it does under [--prefer auto]. *)
Theorem X2_prefer_file_is_auto `{JsonLoads} (o : option path) (ap : bool) (l : option Z)
    (root : path) (c : Fix.counters) (p : path) (is_dir : bool) (e : env) (σ : fs) :
  Fix.body {| Fix.out_root := o; Fix.apply := ap; Fix.limit := l;
              Fix.prefer := Fix.prefer_file |} root c p is_dir e σ
  = Fix.body {| Fix.out_root := o; Fix.apply := ap; Fix.limit := l;
                Fix.prefer := Fix.prefer_auto |} root c p is_dir e σ.
Proof.
  unfold Fix.body. io_unfold. cbn [Fix.out_root Fix.apply Fix.limit Fix.prefer].
  destruct (relative_to p root) as [rel|]; [|done].
  destruct is_dir; [done|].
  destruct (negb (has_parquet_suffix p)); [done|].
  destruct (match l with Some l0 => _ | None => false end); [done|].
  unfold Fix.read_hf_metadata, read_metadata, read_schema. io_unfold.
  destruct (open_parquet p σ) as [σ1 [f|ex]]; [|done].
  destruct (open_parquet p σ1) as [σ2 [f2|ex]]; [|done].
  by rewrite choose_json_file_is_auto.
Qed.



(** X4: an in-place run skips a Parquet file whose file-level blob is
    not empty and does not parse, or parses to [null]: the file is counted
    as seen, [SKIP (no hf meta)] is printed and nothing is written,
    whatever the schema-level slot holds and whatever [--prefer] says. *)
Theorem X4_unusable_source_is_skipped `{JsonLoads} (a : Fix.args) (root p rel : path)
    (c : Fix.counters) (e : env) (σ : fs) (f : parquet_file) (b : bytes) :
  σ !! p = Some (Parquet f) →
  relative_to p root = Ok rel →
  has_parquet_suffix p = true →
  under_limit a c →
  Fix.out_root a = None →
  file_blob f = Some b → b ≠ [] →
  (json_loads b = None ∨ json_loads b = Some JNull) →
  Fix.body a root c p false e σ = (σ, Ok (seen c, Some (Fix.skip_no_hf_meta p))).
Proof.
  intros Hp Hrel Hsuf Hlim Hout Hb Hne Hloads.
  apply (Fix_body_no_usable a root p rel c e σ f Hrel Hsuf Hlim Hp); [|done].
  right. fold (file_blob f) (schema_blob f). rewrite Hb.
  unfold Fix.select_source. rewrite (blob_truthy_Some b Hne).
  cbn [Fix.hf_json from_option id]. unfold Fix.loads_or_None.
  by destruct Hloads as [-> | ->].
Qed.

Lemma X4_witness :
  let f := SampleFiles.file_with (Some SampleFiles.truncated)
             (Some (SampleFiles.blob (Sample.document Sample.feats_a_b))) in
  let σ := SampleFiles.disk f in
  @Fix.body SampleFiles.loads (SampleFiles.in_place Fix.prefer_schema) SampleFiles.root
    SampleFiles.zero SampleFiles.shard false SampleFiles.calm σ
  = (σ, Ok (seen SampleFiles.zero, Some (Fix.skip_no_hf_meta SampleFiles.shard))).
Proof.
  intros f σ.
  refine (@X4_unusable_source_is_skipped SampleFiles.loads
            (SampleFiles.in_place Fix.prefer_schema) SampleFiles.root SampleFiles.shard
            ["shard.parquet"%string] SampleFiles.zero SampleFiles.calm σ f
            SampleFiles.truncated (disk_lookup_shard f) _ _ _ _ _ _ _);
    try (vm_compute; (reflexivity || discriminate)).
  left. vm_compute. reflexivity.
Defined.

Lemma parent_and_name (root : path) :
  root ≠ [] → parent root ++ [name root] = root.
Proof.
  intros Hne. destruct (last root) as [x|] eqn:Hl.
  - apply last_Some in Hl as [l' ->]. rewrite parent_app_singleton.
    unfold name. by rewrite last_snoc.
  - by apply last_None in Hl.
Qed.

(** X5: with [--out] the parent directory of [--root], the output root
    is the source root itself: every destination is the path it was
    computed from, and [write_with_hf_metadata] treats a destination equal
    to its source as an in-place write. *)
Theorem X5_out_parent_of_root_is_in_place (root : path) :
  root ≠ [] →
  Fix.nest_out_root (Some (parent root)) root = Some root
  ∧ (∀ p rel, relative_to p root = Ok rel → root ++ rel = p)
  ∧ (∀ e p hf_json σ,
       Fix.write_with_hf_metadata e p (Some p) hf_json σ
       = Fix.write_with_hf_metadata e p None hf_json σ).
Proof.
  intros Hne. split_and!.
  - unfold Fix.nest_out_root. cbn [fmap option_fmap option_map]. f_equal.
    rewrite <- (parent_and_name root Hne) at 3. f_equal.
    unfold name. destruct (last root) eqn:Hl; [done|]. by apply last_None in Hl.
  - intros p rel Hrel. symmetry. by apply relative_to_app.
  - intros e p hf_json σ. unfold Fix.write_with_hf_metadata. io_unfold.
    destruct (read_table p σ) as [σ1 [t|ex]]; [|done].
    destruct (dumps_utf8 hf_json); [|done].
    by rewrite !bool_decide_eq_true_2 by (by (left + right)).
Qed.

Lemma X5_witness :
  let root := SampleFiles.root in
  Fix.nest_out_root (Some (parent root)) root = Some root
  ∧ (∀ p rel, relative_to p root = Ok rel → root ++ rel = p)
  ∧ (∀ e p hf_json σ,
       Fix.write_with_hf_metadata e p (Some p) hf_json σ
       = Fix.write_with_hf_metadata e p None hf_json σ).
Proof.
  intros root. apply (X5_out_parent_of_root_is_in_place root). discriminate.
Defined.

Lemma relative_to_cases (p root : path) :
  (∃ rel, relative_to p root = Ok rel ∧ p = root ++ rel)
  ∨ (relative_to p root = Raise ValueError ∧ ¬ root `prefix_of` p).
Proof.
  revert p. induction root as [|r root IH]; intros p.
  - left. exists p. by destruct p.
  - destruct p as [|x p]; cbn [relative_to].
    + right. split; [done|]. intros [k Hk]. discriminate.
    + destruct (String.eqb r x) eqn:E.
      * apply String.eqb_eq in E as ->.
        destruct (IH p) as [(rel & Hrel & ->)|[Hrel Hnp]].
        -- left. by exists rel.
        -- right. split; [done|]. intros [k Hk]. injection Hk as Hk.
           apply Hnp. by exists k.
      * right. split; [done|]. apply String.eqb_neq in E.
        intros [k Hk]. by injection Hk as -> _.
Qed.

(** X6: an entry that does not lie under the root makes the loop body
    of both scripts raise [ValueError], from [relative_to], before anything
    is read or written. *)
Theorem X6_entry_outside_root_ends_the_run `{JsonLoads} (root p : path) (is_dir : bool)
    (e : env) (σ : fs) :
  ¬ root `prefix_of` p →
  (∀ a c, Fix.body a root c p is_dir e σ = (σ, Raise ValueError))
  ∧ (∀ a c, Convert.body a root c p is_dir e σ = (σ, Raise ValueError)).
Proof.
  intros Hnp.
  destruct (relative_to_cases p root) as [(rel & _ & ->)|[Hrel _]].
  { destruct Hnp. by exists rel. }
  split; intros a c; [unfold Fix.body | unfold Convert.body]; io_unfold;
    by rewrite Hrel.
Qed.

Lemma X6_witness :
  let p := ["data"; "other"; "shard.parquet"]%string in
  let σ := SampleFiles.disk (SampleFiles.file_with None None) in
  (∀ a c, @Fix.body SampleFiles.loads a SampleFiles.root c p false SampleFiles.calm σ
          = (σ, Raise ValueError))
  ∧ (∀ a c, @Convert.body SampleFiles.loads a SampleFiles.root c p false
              SampleFiles.calm σ
            = (σ, Raise ValueError)).
Proof.
  intros p σ.
  apply (@X6_entry_outside_root_ends_the_run SampleFiles.loads SampleFiles.root p false
           SampleFiles.calm σ).
  intros [k Hk]. discriminate Hk.
Defined.

(** ** What the writers leave *)

(** X7: when [write_with_hf_metadata] returns, the target is a Parquet
    file with the rows of the source, the serialised document under
    [huggingface] in both the file-level and the schema-level metadata
    (which are the same map), and every other schema-level key as in the
    source. *)
Theorem X7_Fix_write_result (e : env) (src : path) (dest : option path)
    (hf_json : json) (f : parquet_file) (σ σ' : fs) :
  σ !! src = Some (Parquet f) →
  Fix.write_with_hf_metadata e src dest hf_json σ = (σ', Ok ()) →
  ∃ blob g,
    dumps_utf8 hf_json = Ok blob
    ∧ σ' !! default src dest = Some (Parquet g)
    ∧ rows g = rows f
    ∧ file_blob g = Some blob
    ∧ schema_blob g = Some blob
    ∧ file_metadata g = schema_metadata g
    ∧ ∀ k, k ≠ HUGGINGFACE →
        or_empty (schema_metadata g) !! k = or_empty (schema_metadata f) !! k.
Proof.
  intros Hsrc Hrun.
  destruct (Fix_write_preserves_other_keys e src dest hf_json f σ σ' Hsrc Hrun)
    as (blob & Hblob & Htarget & Hslot & Hkeys).
  exists blob, (file_of_table (with_hf_blob f blob)).
  split_and!; try done.
Qed.

Lemma X7_witness :
  let f := SampleFiles.file_with None
             (Some (SampleFiles.blob (Sample.document Sample.feats_a_b))) in
  let hf_json := Sample.document Sample.feats_a_b_fixed in
  let run := Fix.write_with_hf_metadata SampleFiles.calm SampleFiles.shard None hf_json
               (SampleFiles.disk f) in
  ∃ blob g,
    dumps_utf8 hf_json = Ok blob
    ∧ run.1 !! default SampleFiles.shard None = Some (Parquet g)
    ∧ rows g = rows f
    ∧ file_blob g = Some blob
    ∧ schema_blob g = Some blob
    ∧ file_metadata g = schema_metadata g
    ∧ ∀ k, k ≠ HUGGINGFACE →
        or_empty (schema_metadata g) !! k = or_empty (schema_metadata f) !! k.
Proof.
  intros f hf_json run.
  apply (X7_Fix_write_result SampleFiles.calm SampleFiles.shard None hf_json f
           (SampleFiles.disk f) run.1 (disk_lookup_shard f)).
  apply (run_result run). vm_compute. reflexivity.
Defined.

(** X8: an in-place [write_with_hf_metadata] (no destination, or the
    destination equal to the source) either returns, and then only the
    source changed and holds the new table; or raises, and then the source
    is as before, no path but the temporary one differs, and nothing at all
    differs when the removal of the temporary file succeeded. *)
Theorem X8_Fix_in_place_write_is_atomic (e : env) (src : path) (dest : option path)
    (hf_json : json) (f : parquet_file) (σ σ' : fs) (r : result unit) :
  σ !! src = Some (Parquet f) →
  (dest = None ∨ dest = Some src) →
  Fix.write_with_hf_metadata e src dest hf_json σ = (σ', r) →
  (r = Ok ()
   ∧ ∃ blob, dumps_utf8 hf_json = Ok blob
             ∧ σ' = <[src := Parquet (file_of_table (with_hf_blob f blob))]> σ)
  ∨ (∃ ex, r = Raise ex
           ∧ σ' !! src = Some (Parquet f)
           ∧ (∀ q, q ≠ parent src ++ [tmp_name e] → σ' !! q = σ !! q)
           ∧ (on_unlink e = true → σ' = σ)).
Proof.
  intros Hsrc Hdest Hrun.
  destruct (dumps_utf8 hf_json) as [blob|ex] eqn:Hblob.
  - assert (Fix.write_with_hf_metadata e src dest hf_json σ
            = write_then_replace e src (with_hf_blob f blob) σ) as Heq.
    { unfold Fix.write_with_hf_metadata, write_then_replace. io_unfold.
      rewrite (read_table_eq src σ f Hsrc), Hblob.
      by rewrite bool_decide_eq_true_2. }
    rewrite Heq in Hrun.
    destruct (write_then_replace_atomic _ _ _ _ _ _ _ Hsrc Hrun) as [[-> ->]|Hfail].
    + left. split; [done|]. by exists blob.
    + by right.
  - right. unfold Fix.write_with_hf_metadata in Hrun. io_unfold.
    rewrite (read_table_eq src σ f Hsrc), Hblob in Hrun.
    injection Hrun as <- <-. by exists ex.
Qed.

Lemma X8_witness :
  let f := SampleFiles.file_with None
             (Some (SampleFiles.blob (Sample.document Sample.feats_a_b))) in
  let hf_json := Sample.document Sample.feats_a_b_fixed in
  let e := SampleFiles.torn in
  let σ := SampleFiles.disk f in
  let run := Fix.write_with_hf_metadata e SampleFiles.shard None hf_json σ in
  (run.2 = Ok ()
   ∧ ∃ blob, dumps_utf8 hf_json = Ok blob
             ∧ run.1 = <[SampleFiles.shard := Parquet (file_of_table (with_hf_blob f blob))]> σ)
  ∨ (∃ ex, run.2 = Raise ex
           ∧ run.1 !! SampleFiles.shard = Some (Parquet f)
           ∧ (∀ q, q ≠ parent SampleFiles.shard ++ [tmp_name e] → run.1 !! q = σ !! q)
           ∧ (on_unlink e = true → run.1 = σ)).
Proof.
  intros f hf_json e σ run.
  apply (X8_Fix_in_place_write_is_atomic e SampleFiles.shard None hf_json f σ run.1 run.2
           (disk_lookup_shard f) (or_introl eq_refl) (surjective_pairing run)).
Defined.



(** ** Dry runs *)

Lemma respects_Fix_body_dry `{JsonLoads} (a : Fix.args) (root : path)
    (c : Fix.counters) (p : path) (is_dir : bool) (e : env) :
  Fix.apply a = false →
  respects eq (Fix.body a root c p is_dir e).
Proof.
  intros Happly. unfold Fix.body. rewrite Happly.
  repeat first
    [ apply (respects_Fix_read_hf_metadata eq)
    | respects_step (@nil string) ].
Qed.

(** X10: without [--apply] a run of the one-pass script leaves the file
    system as it was, in place or mirroring, whether it returns or
    raises. *)
Theorem X10_Fix_dry_run_changes_nothing `{JsonLoads} (a : Fix.args) (root : path)
    (entries : list (path * bool * env)) (c : Fix.counters) (σ σ' : fs)
    (r : result (Fix.counters * list Fix.report)) :
  Fix.apply a = false →
  Fix.main_loop a root c entries σ = (σ', r) →
  σ' = σ.
Proof.
  intros Happly. revert c σ σ' r.
  induction entries as [|[[p is_dir] e] entries IH]; intros c σ σ' r Hrun;
    cbn [Fix.main_loop] in Hrun.
  - by injection Hrun as <- _.
  - io_unfold.
    destruct (Fix.body a root c p is_dir e σ) as [σ1 [[c1 line]|ex]] eqn:Hb;
      pose proof (respects_Fix_body_dry a root c p is_dir e Happly _ _ _ Hb) as ->.
    + destruct (Fix.main_loop a root c1 entries σ1) as [σ2 [[c2 lines]|ex]] eqn:Hm;
        pose proof (IH _ _ _ _ Hm) as ->; by injection Hrun as <- _.
    + by injection Hrun as <- _.
Qed.

Lemma X10_witness :
  let f := SampleFiles.file_with None
             (Some (SampleFiles.blob (Sample.document Sample.feats_a_b))) in
  let σ := SampleFiles.disk f in
  let a := {| Fix.out_root := Some ["mirror"; "set"]%string; Fix.apply := false;
              Fix.limit := None; Fix.prefer := Fix.prefer_auto |} in
  let run := @Fix.main_loop SampleFiles.loads a SampleFiles.root SampleFiles.zero
               [(SampleFiles.root, true, SampleFiles.calm);
                (SampleFiles.shard, false, SampleFiles.calm)] σ in
  run.1 = σ.
Proof.
  intros f σ a run.
  exact (@X10_Fix_dry_run_changes_nothing SampleFiles.loads a SampleFiles.root _
           SampleFiles.zero σ run.1 run.2 eq_refl (surjective_pairing run)).
Defined.

Lemma respects_Convert_body_dry `{JsonLoads} (a : Convert.args) (root : path)
    (c : Convert.counters) (p : path) (is_dir : bool) (e : env) :
  Convert.apply a = false →
  respects eq (Convert.body a root c p is_dir e).
Proof.
  intros Happly. unfold Convert.body, Convert.copy_through. rewrite Happly.
  repeat first
    [ apply (respects_Convert_load_hf_metadata eq)
    | respects_step (@nil string) ].
Qed.

(** X11: without [--apply] a run of the conversion script leaves the
    file system as it was, in place or mirroring, whether it returns or
    raises. *)
Theorem X11_Convert_dry_run_changes_nothing `{JsonLoads} (a : Convert.args) (root : path)
    (entries : list (path * bool * env)) (c : Convert.counters) (σ σ' : fs)
    (r : result (Convert.counters * list Convert.report)) :
  Convert.apply a = false →
  Convert.main_loop a root c entries σ = (σ', r) →
  σ' = σ.
Proof.
  intros Happly. revert c σ σ' r.
  induction entries as [|[[p is_dir] e] entries IH]; intros c σ σ' r Hrun;
    cbn [Convert.main_loop] in Hrun.
  - by injection Hrun as <- _.
  - io_unfold.
    destruct (Convert.body a root c p is_dir e σ) as [σ1 [[c1 line]|ex]] eqn:Hb;
      pose proof (respects_Convert_body_dry a root c p is_dir e Happly _ _ _ Hb) as ->.
    + destruct (Convert.main_loop a root c1 entries σ1) as [σ2 [[c2 lines]|ex]] eqn:Hm;
        pose proof (IH _ _ _ _ Hm) as ->; by injection Hrun as <- _.
    + by injection Hrun as <- _.
Qed.

Lemma X11_witness :
  let f := SampleFiles.file_with
             (Some (SampleFiles.blob (Sample.document Sample.feats_a_b))) None in
  let σ := SampleFiles.disk f in
  let a := {| Convert.out_root := Some ["mirror"; "set"]%string; Convert.apply := false;
              Convert.limit := None |} in
  let run := @Convert.main_loop SampleFiles.loads a SampleFiles.root
               SampleFiles.convert_zero
               [(SampleFiles.root, true, SampleFiles.calm);
                (SampleFiles.shard, false, SampleFiles.calm)] σ in
  run.1 = σ.
Proof.
  intros f σ a run.
  exact (@X11_Convert_dry_run_changes_nothing SampleFiles.loads a SampleFiles.root _
           SampleFiles.convert_zero σ run.1 run.2 eq_refl (surjective_pairing run)).
Defined.

Lemma respects_normalize_file_dry `{JsonLoads} (e : env) (p : path) :
  respects eq (Normalize.normalize_file e p true).
Proof.
  unfold Normalize.normalize_file.
  apply (respects_bind eq); [apply (respects_read_metadata eq) | intros md].
  apply (respects_bind eq); [apply (respects_read_schema eq) | intros sc].
  repeat respects_step (@nil string).
Qed.

Lemma respects_files_loop_dry `{JsonLoads} (dirpath : path)
    (filenames : list (string * env)) (c : Normalize.counters) :
  respects eq (Normalize.files_loop true dirpath c filenames).
Proof.
  revert c. induction filenames as [|[fname e] rest IH]; intros c;
    cbn [Normalize.files_loop].
  - apply (respects_ret eq).
  - destruct (negb (endswith fname ".parquet")); [apply IH|].
    apply (respects_bind eq); [apply respects_normalize_file_dry | intros [ch msg]].
    apply (respects_bind eq); [apply IH | intros [c' lines]].
    apply (respects_ret eq).
Qed.

(** X12: with [--dry-run] a run of the normalising script leaves the
    file system as it was, whether it returns or raises. *)
Theorem X12_Normalize_dry_run_changes_nothing `{JsonLoads}
    (walk : list (path * list (string * env))) (c : Normalize.counters) (σ σ' : fs)
    (r : result (Normalize.counters * list (path * Normalize.message))) :
  Normalize.main_loop true c walk σ = (σ', r) → σ' = σ.
Proof.
  revert c σ σ' r.
  assert (∀ c, respects eq (Normalize.main_loop true c walk)) as Hall.
  { induction walk as [|[dirpath filenames] rest IH]; intros c;
      cbn [Normalize.main_loop].
    - apply (respects_ret eq).
    - apply (respects_bind eq); [apply respects_files_loop_dry | intros [c' lines]].
      apply (respects_bind eq); [apply IH | intros [c'' lines']].
      apply (respects_ret eq). }
  intros c σ σ' r Hrun. symmetry. by apply (Hall c σ σ' r).
Qed.

Lemma X12_witness :
  let f := SampleFiles.file_with
             (Some (SampleFiles.blob (Sample.document Sample.feats_a_b_fixed)))
             (Some (SampleFiles.blob (Sample.document Sample.feats_a_b))) in
  let σ := SampleFiles.disk f in
  let run := @Normalize.main_loop SampleFiles.loads true
               {| Normalize.total := 0; Normalize.changed := 0; Normalize.skipped := 0 |}
               [(SampleFiles.root, [("shard.parquet"%string, SampleFiles.calm)])] σ in
  run.1 = σ.
Proof.
  intros f σ run.
  exact (@X12_Normalize_dry_run_changes_nothing SampleFiles.loads _ _ σ run.1 run.2
           (surjective_pairing run)).
Defined.

(** ** [normalize_file] *)

Lemma normalize_file_consistent `{JsonLoads} (e : env) (p : path) (dry_run : bool)
    (g : parquet_file) (σ : fs) :
  σ !! p = Some (Parquet g) →
  schema_blob g = file_blob g →
  ∃ msg, Normalize.normalize_file e p dry_run σ = (σ, Ok (false, msg)).
Proof.
  intros Hp Heq. unfold Normalize.normalize_file. io_unfold.
  rewrite (read_metadata_eq p σ g Hp), (read_schema_eq p σ g Hp).
  fold (file_blob g) (schema_blob g). rewrite Heq. unfold Normalize.or_blob.
  destruct (blob_truthy (file_blob g)); cbn [negb andb]; [|by eexists].
  destruct (json_loads (default [] (file_blob g))); [|by eexists].
  rewrite bool_decide_eq_true_2 by done. by eexists.
Qed.

(** X13: [normalize_file] reports a change only for a file whose
    file-level blob is not empty, parses, and differs from the
    schema-level slot.  A dry run then changes nothing; otherwise only
    that file changes, to the table with the re-serialised document under
    [huggingface], and [normalize_file] on it again reports no change and
    writes nothing. *)
Theorem X13_normalize_file_update (e : env) `{JsonLoads} (p : path) (dry_run : bool)
    (f : parquet_file) (σ σ' : fs) (msg : Normalize.message) :
  σ !! p = Some (Parquet f) →
  Normalize.normalize_file e p dry_run σ = (σ', Ok (true, msg)) →
  ∃ b src_json,
    file_blob f = Some b ∧ b ≠ [] ∧ schema_blob f ≠ Some b
    ∧ json_loads b = Some src_json
    ∧ if dry_run
      then msg = Normalize.would_update_schema_hf_metadata ∧ σ' = σ
      else ∃ blob,
             dumps_utf8 src_json = Ok blob
             ∧ msg = Normalize.updated_schema_hf_metadata
             ∧ σ' = <[p := Parquet (file_of_table (with_hf_blob f blob))]> σ
             ∧ ∀ e2 dry_run2, ∃ msg2,
                 Normalize.normalize_file e2 p dry_run2 σ' = (σ', Ok (false, msg2)).
Proof.
  intros Hp Hrun. unfold Normalize.normalize_file in Hrun. io_unfold.
  rewrite (read_metadata_eq p σ f Hp), (read_schema_eq p σ f Hp) in Hrun.
  fold (file_blob f) (schema_blob f) in Hrun. unfold Normalize.or_blob in Hrun.
  destruct (file_blob f) as [[|x b]|] eqn:Ef; cbn [blob_truthy negb andb] in Hrun.
  1, 3: destruct (blob_truthy (schema_blob f)); cbn [negb] in Hrun;
    [ destruct (json_loads (default [] (schema_blob f)));
      [ rewrite bool_decide_eq_true_2 in Hrun by done |]; discriminate
    | discriminate ].
  cbn [from_option id] in Hrun.
  destruct (json_loads (x :: b)) as [src_json|] eqn:Hl; [|discriminate].
  case_bool_decide as Hs; [discriminate|].
  exists (x :: b), src_json. split_and!; try done.
  destruct dry_run.
  { by injection Hrun as <- <-. }
  rewrite (read_table_eq p σ f Hp) in Hrun.
  destruct (dumps_utf8 src_json) as [blob|ex] eqn:Hblob; [|discriminate].
  fold (with_hf_blob f blob) in Hrun. unfold write_table in Hrun.
  destruct (on_write_table e); try discriminate.
  injection Hrun as <- <-. exists blob. split_and!; try done.
  intros e2 dry_run2.
  apply normalize_file_consistent with (g := file_of_table (with_hf_blob f blob)).
  - apply lookup_insert_eq.
  - unfold schema_blob, file_blob. by cbn.
Qed.

Lemma X13_witness :
  let f := SampleFiles.file_with
             (Some (SampleFiles.blob (Sample.document Sample.feats_a_b_fixed)))
             (Some (SampleFiles.blob (Sample.document Sample.feats_a_b))) in
  let σ := SampleFiles.disk f in
  let p := SampleFiles.shard in
  let msg := Normalize.updated_schema_hf_metadata in
  let run := @Normalize.normalize_file SampleFiles.loads SampleFiles.calm p false σ in
  ∃ b src_json,
    file_blob f = Some b ∧ b ≠ [] ∧ schema_blob f ≠ Some b
    ∧ SampleFiles.loads b = Some src_json
    ∧ ∃ blob,
        dumps_utf8 src_json = Ok blob
        ∧ msg = Normalize.updated_schema_hf_metadata
        ∧ run.1 = <[p := Parquet (file_of_table (with_hf_blob f blob))]> σ
        ∧ ∀ e2 dry_run2, ∃ msg2,
            @Normalize.normalize_file SampleFiles.loads e2 p dry_run2 run.1
            = (run.1, Ok (false, msg2)).
Proof.
  intros f σ p msg run.
  apply (@X13_normalize_file_update SampleFiles.calm SampleFiles.loads p false f σ run.1 msg
           (disk_lookup_shard f)).
  apply (run_result run). vm_compute. reflexivity.
Defined.

(** ** The loop of [normalize_parquet_hf_schema_meta.py] *)

Lemma Normalize_files_loop_counts `{JsonLoads} (dry_run : bool) (dirpath : path)
    (filenames : list (string * env)) (c c' : Normalize.counters) (σ σ' : fs)
    (lines : list (path * Normalize.message)) :
  Normalize.files_loop dry_run dirpath c filenames σ = (σ', Ok (c', lines)) →
  Normalize.total c' = Normalize.total c + length lines
  ∧ Normalize.changed c' + Normalize.skipped c'
    = Normalize.changed c + Normalize.skipped c + length lines.
Proof.
  revert c σ σ' c' lines.
  induction filenames as [|[fname e] rest IH]; intros c σ σ' c' lines Hrun;
    cbn [Normalize.files_loop] in Hrun.
  - injection Hrun as _ <- <-. cbn. lia.
  - destruct (negb (endswith fname ".parquet")); [by eapply IH|].
    io_unfold.
    destruct (Normalize.normalize_file e (dirpath ++ [fname]) dry_run σ)
      as [σ1 [[ch msg]|ex]]; [|discriminate].
    match type of Hrun with
    | context [Normalize.files_loop _ _ ?c1 rest σ1] =>
        destruct (Normalize.files_loop dry_run dirpath c1 rest σ1)
          as [σ2 [[c2 lines2]|ex]] eqn:Hrest; [|discriminate];
        apply IH in Hrest
    end.
    injection Hrun as _ <- <-. cbn [length].
    destruct ch; cbn [Normalize.total Normalize.changed Normalize.skipped] in Hrest; lia.
Qed.

(** X14: in a run of the normalising script that returns, [total] grows
    by the number of lines printed, [changed] and [skipped] together grow
    by the same number, and [total = changed + skipped] is kept. *)
Theorem X14_Normalize_main_counts `{JsonLoads} (dry_run : bool)
    (walk : list (path * list (string * env))) (c c' : Normalize.counters)
    (σ σ' : fs) (lines : list (path * Normalize.message)) :
  Normalize.main_loop dry_run c walk σ = (σ', Ok (c', lines)) →
  Normalize.total c' = Normalize.total c + length lines
  ∧ Normalize.changed c' + Normalize.skipped c'
    = Normalize.changed c + Normalize.skipped c + length lines
  ∧ (Normalize.total c = Normalize.changed c + Normalize.skipped c →
     Normalize.total c' = Normalize.changed c' + Normalize.skipped c').
Proof.
  revert c σ σ' c' lines.
  induction walk as [|[dirpath filenames] rest IH]; intros c σ σ' c' lines Hrun;
    cbn [Normalize.main_loop] in Hrun.
  - injection Hrun as _ <- <-. cbn. lia.
  - io_unfold.
    destruct (Normalize.files_loop dry_run dirpath c filenames σ)
      as [σ1 [[c1 lines1]|ex]] eqn:Hfiles; [|discriminate].
    destruct (Normalize.main_loop dry_run c1 rest σ1)
      as [σ2 [[c2 lines2]|ex]] eqn:Hrest; [|discriminate].
    injection Hrun as _ <- <-.
    apply Normalize_files_loop_counts in Hfiles. apply IH in Hrest.
    rewrite length_app. lia.
Qed.

Lemma X14_witness :
  let f := SampleFiles.file_with
             (Some (SampleFiles.blob (Sample.document Sample.feats_a_b_fixed)))
             (Some (SampleFiles.blob (Sample.document Sample.feats_a_b))) in
  let c := {| Normalize.total := 0; Normalize.changed := 0; Normalize.skipped := 0 |} in
  let c' := {| Normalize.total := 1; Normalize.changed := 1; Normalize.skipped := 0 |} in
  let lines := [(SampleFiles.shard, Normalize.updated_schema_hf_metadata)] in
  Normalize.total c' = Normalize.total c + length lines
  ∧ Normalize.changed c' + Normalize.skipped c'
    = Normalize.changed c + Normalize.skipped c + length lines
  ∧ (Normalize.total c = Normalize.changed c + Normalize.skipped c →
     Normalize.total c' = Normalize.changed c' + Normalize.skipped c').
Proof.
  intros f c c' lines.
  pose (walk := [(SampleFiles.root, [("notes.txt"%string, SampleFiles.calm);
                                      ("shard.parquet"%string, SampleFiles.calm)])]).
  pose (run := @Normalize.main_loop SampleFiles.loads false c walk (SampleFiles.disk f)).
  apply (@X14_Normalize_main_counts SampleFiles.loads false walk c c' (SampleFiles.disk f)
           run.1 lines).
  apply (run_result run). vm_compute. reflexivity.
Defined.

(** ** Counters *)

Lemma Fix_body_counters `{JsonLoads} (a : Fix.args) (root : path) (c c' : Fix.counters)
    (p : path) (is_dir : bool) (e : env) (σ σ' : fs) (line : option Fix.report) :
  Fix.body a root c p is_dir e σ = (σ', Ok (c', line)) →
  Fix.affected_parquet c ≤ Fix.affected_parquet c'
  ∧ Fix.affected_parquet c' - Fix.affected_parquet c
    ≤ Fix.seen_parquet c' - Fix.seen_parquet c
  ∧ Fix.seen_parquet c ≤ Fix.seen_parquet c'
  ∧ Fix.seen_parquet c' - Fix.seen_parquet c
    ≤ Fix.total_parquet c' - Fix.total_parquet c
  ∧ Fix.total_parquet c ≤ Fix.total_parquet c'
  ∧ Fix.seen_parquet c' ≤ Fix.seen_parquet c + 1
  ∧ (∀ l, Fix.limit a = Some l →
          (l ≤ Z.of_nat (Fix.seen_parquet c))%Z →
          Fix.seen_parquet c' = Fix.seen_parquet c).
Proof.
  intros Hrun. unfold Fix.body in Hrun. io_unfold.
  repeat match type of Hrun with
         | (_, _) = (_, _) => injection Hrun as _ <- _
         | (_, Raise _) = (_, Ok _) => discriminate Hrun
         | context [match ?x with _ => _ end] => destruct x eqn:?
         | context [if ?x then _ else _] => destruct x eqn:?
         end;
    cbn [Fix.seen_parquet Fix.affected_parquet Fix.total_parquet] in *;
    split_and!;
    first
      [ lia
      | match goal with |- context [if ?b then 1 else 0] => destruct b end; lia
      | intros l0 Hl0 Hle;
        rewrite Hl0 in *; cbn beta iota in *;
        repeat match goal with
               | Hb : bool_decide _ = false |- _ => apply bool_decide_eq_false in Hb
               end;
        first [lia | congruence] ].
Qed.

(** X15: over a run of the one-pass script that returns,
    [affected_parquet], [seen_parquet] and [total_parquet] do not
    decrease, the first grows by no more than the second and the second
    by no more than the third, and with [--limit l] the number of files
    seen never passes [l] (or what it was at the start, if that was
    more). *)
Theorem X15_Fix_main_counters `{JsonLoads} (a : Fix.args) (root : path)
    (entries : list (path * bool * env)) (c c' : Fix.counters) (σ σ' : fs)
    (lines : list Fix.report) :
  Fix.main_loop a root c entries σ = (σ', Ok (c', lines)) →
  Fix.affected_parquet c' - Fix.affected_parquet c
  ≤ Fix.seen_parquet c' - Fix.seen_parquet c
  ∧ Fix.seen_parquet c' - Fix.seen_parquet c
    ≤ Fix.total_parquet c' - Fix.total_parquet c
  ∧ Fix.affected_parquet c ≤ Fix.affected_parquet c'
  ∧ Fix.seen_parquet c ≤ Fix.seen_parquet c'
  ∧ Fix.total_parquet c ≤ Fix.total_parquet c'
  ∧ (∀ l, Fix.limit a = Some l →
          (Z.of_nat (Fix.seen_parquet c') ≤ Z.max l (Z.of_nat (Fix.seen_parquet c)))%Z).
Proof.
  revert c σ σ' c' lines.
  induction entries as [|[[p is_dir] e] entries IH]; intros c σ σ' c' lines Hrun;
    cbn [Fix.main_loop] in Hrun.
  - injection Hrun as _ <- _. split_and!; try lia; intros l _; lia.
  - io_unfold.
    destruct (Fix.body a root c p is_dir e σ) as [σ1 [[c1 line]|ex]] eqn:Hb;
      [|discriminate].
    destruct (Fix.main_loop a root c1 entries σ1) as [σ2 [[c2 lines2]|ex]] eqn:Hm;
      [|discriminate].
    injection Hrun as _ <- _.
    apply Fix_body_counters in Hb as (? & ? & ? & ? & ? & ? & Hlim).
    apply IH in Hm as (? & ? & ? & ? & ? & Hlim').
    split_and!; try lia.
    intros l Hl. specialize (Hlim l Hl). specialize (Hlim' l Hl).
    destruct (decide (l ≤ Z.of_nat (Fix.seen_parquet c))%Z) as [Hle|Hgt].
    + rewrite (Hlim Hle) in Hlim'. lia.
    + lia.
Qed.

Lemma X15_witness :
  let f := SampleFiles.file_with None
             (Some (SampleFiles.blob (Sample.document Sample.feats_a_b))) in
  let a := {| Fix.out_root := None; Fix.apply := true; Fix.limit := Some 1%Z;
              Fix.prefer := Fix.prefer_auto |} in
  let c := SampleFiles.zero in
  let c' := {| Fix.seen_parquet := 1; Fix.affected_parquet := 1;
               Fix.changed_entries := 1; Fix.copied_other := 0;
               Fix.total_parquet := 2 |} in
  Fix.affected_parquet c' - Fix.affected_parquet c
  ≤ Fix.seen_parquet c' - Fix.seen_parquet c
  ∧ Fix.seen_parquet c' - Fix.seen_parquet c
    ≤ Fix.total_parquet c' - Fix.total_parquet c
  ∧ Fix.affected_parquet c ≤ Fix.affected_parquet c'
  ∧ Fix.seen_parquet c ≤ Fix.seen_parquet c'
  ∧ Fix.total_parquet c ≤ Fix.total_parquet c'
  ∧ (∀ l, Fix.limit a = Some l →
          (Z.of_nat (Fix.seen_parquet c') ≤ Z.max l (Z.of_nat (Fix.seen_parquet c)))%Z).
Proof.
  intros f a c c'.
  pose (entries := [(SampleFiles.shard, false, SampleFiles.calm);
                    (SampleFiles.shard, false, SampleFiles.calm)]).
  pose (run := @Fix.main_loop SampleFiles.loads a SampleFiles.root c entries
                 (SampleFiles.disk f)).
  apply (@X15_Fix_main_counters SampleFiles.loads a SampleFiles.root entries c c'
           (SampleFiles.disk f) run.1
           [Fix.applied_update SampleFiles.shard 1 [py_str "a"]]).
  apply (run_result run). vm_compute. reflexivity.
Defined.

Lemma Convert_body_counters `{JsonLoads} (a : Convert.args) (root : path)
    (c c' : Convert.counters) (p : path) (is_dir : bool) (e : env) (σ σ' : fs)
    (line : option Convert.report) :
  Convert.body a root c p is_dir e σ = (σ', Ok (c', line)) →
  Convert.parquet_seen c' - Convert.parquet_seen c
  = Convert.total_parquet c' - Convert.total_parquet c
  ∧ Convert.affected_parquet c' - Convert.affected_parquet c
    ≤ Convert.parquet_seen c' - Convert.parquet_seen c
  ∧ Convert.affected_parquet c' - Convert.affected_parquet c
    ≤ Convert.changed_entries c' - Convert.changed_entries c
  ∧ Convert.affected_parquet c ≤ Convert.affected_parquet c'
  ∧ Convert.changed_entries c ≤ Convert.changed_entries c'
  ∧ Convert.parquet_seen c ≤ Convert.parquet_seen c'
  ∧ Convert.total_parquet c ≤ Convert.total_parquet c'
  ∧ Convert.parquet_seen c' ≤ Convert.parquet_seen c + 1
  ∧ (∀ l, Convert.limit a = Some l →
          (l ≤ Z.of_nat (Convert.parquet_seen c))%Z →
          Convert.parquet_seen c' = Convert.parquet_seen c).
Proof.
  intros Hrun. unfold Convert.body, Convert.copy_through in Hrun. io_unfold.
  repeat match type of Hrun with
         | (_, _) = (_, _) => injection Hrun as _ <- _
         | (_, Raise _) = (_, Ok _) => discriminate Hrun
         | context [match ?x with _ => _ end] => destruct x eqn:?
         | context [if ?x then _ else _] => destruct x eqn:?
         end;
    cbn [Convert.parquet_seen Convert.affected_parquet Convert.total_parquet
         Convert.changed_entries] in *;
    repeat match goal with
           | Hb : bool_decide (_ = 0) = false |- _ => apply bool_decide_eq_false in Hb
           end;
    split_and!;
    first
      [ lia
      | intros l0 Hl0 Hle;
        rewrite Hl0 in *; cbn beta iota in *;
        repeat match goal with
               | Hb : bool_decide _ = false |- _ => apply bool_decide_eq_false in Hb
               end;
        first [lia | congruence] ].
Qed.

(** X16: over a run of the conversion script that returns,
    [affected_parquet], [changed_entries], [parquet_seen] and
    [total_parquet] do not decrease, the last two grow by the same
    amount, [affected_parquet] grows by no more than [parquet_seen] and by
    no more than [changed_entries], and with [--limit l] the number of
    files seen never passes [l] (or what it was at the start, if that was
    more). *)
Theorem X16_Convert_main_counters `{JsonLoads} (a : Convert.args) (root : path)
    (entries : list (path * bool * env)) (c c' : Convert.counters) (σ σ' : fs)
    (lines : list Convert.report) :
  Convert.main_loop a root c entries σ = (σ', Ok (c', lines)) →
  Convert.parquet_seen c' - Convert.parquet_seen c
  = Convert.total_parquet c' - Convert.total_parquet c
  ∧ Convert.affected_parquet c' - Convert.affected_parquet c
    ≤ Convert.parquet_seen c' - Convert.parquet_seen c
  ∧ Convert.affected_parquet c' - Convert.affected_parquet c
    ≤ Convert.changed_entries c' - Convert.changed_entries c
  ∧ Convert.affected_parquet c ≤ Convert.affected_parquet c'
  ∧ Convert.changed_entries c ≤ Convert.changed_entries c'
  ∧ Convert.parquet_seen c ≤ Convert.parquet_seen c'
  ∧ Convert.total_parquet c ≤ Convert.total_parquet c'
  ∧ (∀ l, Convert.limit a = Some l →
          (Z.of_nat (Convert.parquet_seen c')
           ≤ Z.max l (Z.of_nat (Convert.parquet_seen c)))%Z).
Proof.
  revert c σ σ' c' lines.
  induction entries as [|[[p is_dir] e] entries IH]; intros c σ σ' c' lines Hrun;
    cbn [Convert.main_loop] in Hrun.
  - injection Hrun as _ <- _. split_and!; try lia; intros l _; lia.
  - io_unfold.
    destruct (Convert.body a root c p is_dir e σ) as [σ1 [[c1 line]|ex]] eqn:Hb;
      [|discriminate].
    destruct (Convert.main_loop a root c1 entries σ1) as [σ2 [[c2 lines2]|ex]] eqn:Hm;
      [|discriminate].
    injection Hrun as _ <- _.
    apply Convert_body_counters in Hb as (? & ? & ? & ? & ? & ? & ? & ? & Hlim).
    apply IH in Hm as (? & ? & ? & ? & ? & ? & ? & Hlim').
    split_and!; try lia.
    intros l Hl. specialize (Hlim l Hl). specialize (Hlim' l Hl).
    destruct (decide (l ≤ Z.of_nat (Convert.parquet_seen c))%Z) as [Hle|Hgt].
    + rewrite (Hlim Hle) in Hlim'. lia.
    + lia.
Qed.

Lemma X16_witness :
  let f := SampleFiles.file_with
             (Some (SampleFiles.blob (Sample.document Sample.feats_a_b))) None in
  let a := {| Convert.out_root := None; Convert.apply := true;
              Convert.limit := Some 1%Z |} in
  let c := SampleFiles.convert_zero in
  let c' := {| Convert.total_parquet := 1; Convert.affected_parquet := 1;
               Convert.changed_entries := 1; Convert.copied_other := 0;
               Convert.parquet_seen := 1 |} in
  Convert.parquet_seen c' - Convert.parquet_seen c
  = Convert.total_parquet c' - Convert.total_parquet c
  ∧ Convert.affected_parquet c' - Convert.affected_parquet c
    ≤ Convert.parquet_seen c' - Convert.parquet_seen c
  ∧ Convert.affected_parquet c' - Convert.affected_parquet c
    ≤ Convert.changed_entries c' - Convert.changed_entries c
  ∧ Convert.affected_parquet c ≤ Convert.affected_parquet c'
  ∧ Convert.changed_entries c ≤ Convert.changed_entries c'
  ∧ Convert.parquet_seen c ≤ Convert.parquet_seen c'
  ∧ Convert.total_parquet c ≤ Convert.total_parquet c'
  ∧ (∀ l, Convert.limit a = Some l →
          (Z.of_nat (Convert.parquet_seen c')
           ≤ Z.max l (Z.of_nat (Convert.parquet_seen c)))%Z).
Proof.
  intros f a c c'.
  pose (entries := [(SampleFiles.shard, false, SampleFiles.calm);
                    (SampleFiles.shard, false, SampleFiles.calm)]).
  pose (run := @Convert.main_loop SampleFiles.loads a SampleFiles.root c entries
                 (SampleFiles.disk f)).
  apply (@X16_Convert_main_counters SampleFiles.loads a SampleFiles.root entries c c'
           (SampleFiles.disk f) run.1
           [Convert.applied_in_place SampleFiles.shard 1]).
  apply (run_result run). vm_compute. reflexivity.
Defined.

(** ** In-place runs *)

#[global] Instance changed_only_at_refl (P : path → Prop) : Reflexive (changed_only_at P).
Proof. intros σ q. by left. Qed.

#[global] Instance changed_only_at_trans (P : path → Prop) : Transitive (changed_only_at P).
Proof.
  intros σ1 σ2 σ3 H12 H23 q.
  destruct (H23 q) as [E2|?]; [|by right].
  destruct (H12 q) as [E1|?]; [|by right]. left. congruence.
Qed.

Lemma changed_only_at_mono (P P' : path → Prop) (σ σ' : fs) :
  (∀ q, P q → P' q) → changed_only_at P σ σ' → changed_only_at P' σ σ'.
Proof. intros HP Hc q. destruct (Hc q); [by left | right; by apply HP]. Qed.

Lemma respects_mono {A : Type} (P P' : path → Prop) (m : io A) :
  (∀ q, P q → P' q) →
  respects (changed_only_at P) m → respects (changed_only_at P') m.
Proof. intros HP Hm σ σ' r Hrun. eapply changed_only_at_mono; [done|]. by eapply Hm. Qed.

Lemma changed_only_at_insert (P : path → Prop) (q : path) (n : node) (σ : fs) :
  P q → changed_only_at P σ (<[q := n]> σ).
Proof.
  intros Hq q'. destruct (decide (q' = q)) as [->|Hne]; [by right|].
  left. by rewrite lookup_insert_ne.
Qed.

Lemma changed_only_at_delete (P : path → Prop) (q : path) (σ : fs) :
  P q → changed_only_at P σ (delete q σ).
Proof.
  intros Hq q'. destruct (decide (q' = q)) as [->|Hne]; [by right|].
  left. by rewrite lookup_delete_ne.
Qed.

Lemma respects_write_table_at (P : path → Prop) (e : env) (t : table) (d : path) :
  P d → respects (changed_only_at P) (write_table e t d).
Proof.
  intros Hd σ σ' r Hrun. unfold write_table in Hrun.
  destruct (on_write_table e); injection Hrun as <- _;
    first [reflexivity | by apply changed_only_at_insert].
Qed.

Lemma respects_write_then_replace (P : path → Prop) (e : env) (src : path)
    (new_table : table) (n : node) (σ σ' : fs) (r : result unit) :
  P src → P (parent src ++ [tmp_name e]) →
  σ !! src = Some n →
  write_then_replace e src new_table σ = (σ', r) →
  changed_only_at P σ σ'.
Proof.
  intros Hsrc Htmp Hn Hrun.
  destruct (write_then_replace_atomic e src new_table n σ σ' r Hn Hrun)
    as [[_ ->]|(ex & _ & _ & Hsame & _)].
  - by apply changed_only_at_insert.
  - intros q. destruct (decide (q = parent src ++ [tmp_name e])) as [->|Hq];
      [by right | left; by apply Hsame].
Qed.

Lemma read_table_missing (src : path) (σ : fs) :
  (∀ f, σ !! src ≠ Some (Parquet f)) →
  ∃ ex, read_table src σ = (σ, Raise ex).
Proof.
  intros Hno. unfold read_table, open_parquet. io_unfold.
  destruct (σ !! src) as [[|f|]|] eqn:E; try (by eexists).
  by destruct (Hno f).
Qed.

Lemma respects_Fix_write_in_place (P : path → Prop) (e : env) (src : path)
    (dest : option path) (hf_json : json) :
  (dest = None ∨ dest = Some src) →
  P src → P (parent src ++ [tmp_name e]) →
  respects (changed_only_at P) (Fix.write_with_hf_metadata e src dest hf_json).
Proof.
  intros Hdest Hsrc Htmp σ σ' r Hrun.
  destruct (σ !! src) as [n|] eqn:Hn.
  2: { destruct (read_table_missing src σ) as [ex Hex]; [by rewrite Hn|].
       unfold Fix.write_with_hf_metadata in Hrun. io_unfold. rewrite Hex in Hrun.
       injection Hrun as <- _. reflexivity. }
  destruct n as [|f|content].
  1, 3: destruct (read_table_missing src σ) as [ex Hex];
    [ by rewrite Hn
    | unfold Fix.write_with_hf_metadata in Hrun; io_unfold;
      rewrite Hex in Hrun; injection Hrun as <- _; reflexivity ].
  unfold Fix.write_with_hf_metadata in Hrun. io_unfold.
  rewrite (read_table_eq src σ f Hn) in Hrun.
  destruct (dumps_utf8 hf_json) as [blob|ex]; [|injection Hrun as <- _; reflexivity].
  rewrite bool_decide_eq_true_2 in Hrun by done.
  apply (respects_write_then_replace P e src (with_hf_blob f blob) (Parquet f) σ σ' r
           Hsrc Htmp Hn).
  exact Hrun.
Qed.

Lemma respects_Convert_rewrite (P : path → Prop) (e : env) (src : path)
    (new_metadata : metadata) :
  P src → P (parent src ++ [tmp_name e]) →
  respects (changed_only_at P) (Convert.rewrite_parquet_with_metadata e src new_metadata).
Proof.
  intros Hsrc Htmp σ σ' r Hrun.
  destruct (σ !! src) as [n|] eqn:Hn.
  2: { destruct (read_table_missing src σ) as [ex Hex]; [by rewrite Hn|].
       unfold Convert.rewrite_parquet_with_metadata in Hrun. io_unfold.
       rewrite Hex in Hrun. injection Hrun as <- _. reflexivity. }
  destruct n as [|f|content].
  1, 3: destruct (read_table_missing src σ) as [ex Hex];
    [ by rewrite Hn
    | unfold Convert.rewrite_parquet_with_metadata in Hrun; io_unfold;
      rewrite Hex in Hrun; injection Hrun as <- _; reflexivity ].
  rewrite (Convert_rewrite_is_block e src new_metadata f σ Hn) in Hrun.
  exact (respects_write_then_replace P e src _ (Parquet f) σ σ' r Hsrc Htmp Hn Hrun).
Qed.

Lemma respects_Fix_body_in_place `{JsonLoads} (a : Fix.args) (root : path)
    (c : Fix.counters) (p : path) (is_dir : bool) (e : env) :
  Fix.out_root a = None →
  respects
    (changed_only_at
       (λ q, is_dir = false ∧ has_parquet_suffix p = true
             ∧ (q = p ∨ q = parent p ++ [tmp_name e])))
    (Fix.body a root c p is_dir e).
Proof.
  intros Hout. unfold Fix.body. rewrite Hout. cbn [fmap option_fmap option_map].
  destruct is_dir.
  { repeat respects_step (@nil string). }
  destruct (has_parquet_suffix p) eqn:Hsuf; cbn [negb].
  2: { repeat respects_step (@nil string). }
  repeat first
    [ apply (respects_Fix_read_hf_metadata (changed_only_at _))
    | apply respects_Fix_write_in_place;
      [ by left | cbn; split_and!; by (done || left) | cbn; split_and!; by (done || right) ]
    | respects_step (@nil string) ].
Qed.

Lemma respects_Convert_body_in_place `{JsonLoads} (a : Convert.args) (root : path)
    (c : Convert.counters) (p : path) (is_dir : bool) (e : env) :
  Convert.out_root a = None →
  respects
    (changed_only_at
       (λ q, is_dir = false ∧ has_parquet_suffix p = true
             ∧ (q = p ∨ q = parent p ++ [tmp_name e])))
    (Convert.body a root c p is_dir e).
Proof.
  intros Hout. unfold Convert.body, Convert.copy_through. rewrite Hout.
  destruct is_dir.
  { repeat respects_step (@nil string). }
  destruct (has_parquet_suffix p) eqn:Hsuf.
  2: { repeat respects_step (@nil string). }
  repeat first
    [ apply (respects_Convert_load_hf_metadata (changed_only_at _))
    | apply respects_Convert_rewrite;
      [ cbn; split_and!; by (done || left) | cbn; split_and!; by (done || right) ]
    | respects_step (@nil string) ].
Qed.

(** X17: an in-place run of either script, returning or raising, changes
    no path but the walked files with suffix [.parquet] and the temporary
    files created next to them: no directory, no other file. *)
Theorem X17_in_place_run_footprint `{JsonLoads} (root : path)
    (entries : list (path * bool * env)) (σ σ' : fs) :
  (∀ a c r, Fix.out_root a = None →
            Fix.main_loop a root c entries σ = (σ', r) →
            changed_only_at (in_place_target entries) σ σ')
  ∧ (∀ a c r, Convert.out_root a = None →
              Convert.main_loop a root c entries σ = (σ', r) →
              changed_only_at (in_place_target entries) σ σ').
Proof.
  split; intros a c r Hout; revert c σ σ' r.
  - assert (∀ c, respects (changed_only_at (in_place_target entries))
                   (Fix.main_loop a root c entries)) as Hall.
    { induction entries as [|[[p is_dir] e] entries IH]; intros c;
        cbn [Fix.main_loop].
      - apply (respects_ret (changed_only_at _)).
      - apply (respects_bind (changed_only_at _)).
        + eapply respects_mono; [|by apply respects_Fix_body_in_place].
          intros q (-> & Hsuf & Hq). exists p, e. split_and!; [left|done|done].
        + intros [c' line]. apply (respects_bind (changed_only_at _)).
          * eapply respects_mono; [|apply IH].
            intros q (p' & e' & Hin & Hsuf & Hq). exists p', e'.
            split_and!; [by right|done|done].
          * intros [c'' lines]. apply (respects_ret (changed_only_at _)). }
    intros c σ σ' r Hrun. by apply (Hall c σ σ' r).
  - assert (∀ c, respects (changed_only_at (in_place_target entries))
                   (Convert.main_loop a root c entries)) as Hall.
    { induction entries as [|[[p is_dir] e] entries IH]; intros c;
        cbn [Convert.main_loop].
      - apply (respects_ret (changed_only_at _)).
      - apply (respects_bind (changed_only_at _)).
        + eapply respects_mono; [|by apply respects_Convert_body_in_place].
          intros q (-> & Hsuf & Hq). exists p, e. split_and!; [left|done|done].
        + intros [c' line]. apply (respects_bind (changed_only_at _)).
          * eapply respects_mono; [|apply IH].
            intros q (p' & e' & Hin & Hsuf & Hq). exists p', e'.
            split_and!; [by right|done|done].
          * intros [c'' lines]. apply (respects_ret (changed_only_at _)). }
    intros c σ σ' r Hrun. by apply (Hall c σ σ' r).
Qed.

Lemma X17_witness :
  let f := SampleFiles.file_with None
             (Some (SampleFiles.blob (Sample.document Sample.feats_a_b))) in
  let σ := SampleFiles.disk f in
  let entries := [(SampleFiles.root, true, SampleFiles.calm);
                  (SampleFiles.shard, false, SampleFiles.torn)] in
  let run := @Fix.main_loop SampleFiles.loads (SampleFiles.in_place Fix.prefer_auto)
               SampleFiles.root SampleFiles.zero entries σ in
  changed_only_at (in_place_target entries) σ run.1.
Proof.
  intros f σ entries run.
  exact (proj1 (@X17_in_place_run_footprint SampleFiles.loads SampleFiles.root entries σ
                  run.1)
           (SampleFiles.in_place Fix.prefer_auto) SampleFiles.zero run.2 eq_refl
           (surjective_pairing run)).
Defined.

Lemma respects_normalize_file_at `{JsonLoads} (P : path → Prop) (e : env) (p : path)
    (dry_run : bool) :
  P p → respects (changed_only_at P) (Normalize.normalize_file e p dry_run).
Proof.
  intros Hp. unfold Normalize.normalize_file.
  apply (respects_bind (changed_only_at P));
    [apply (respects_read_metadata (changed_only_at P)) | intros md].
  apply (respects_bind (changed_only_at P));
    [apply (respects_read_schema (changed_only_at P)) | intros sc].
  repeat first
    [ by apply respects_write_table_at
    | respects_step (@nil string) ].
Qed.

(** X18: a run of the normalising script, returning or raising, changes
    no path but the walked files whose name ends in [.parquet]; it creates
    no temporary file. *)
Theorem X18_Normalize_run_footprint `{JsonLoads} (dry_run : bool)
    (walk : list (path * list (string * env))) (c : Normalize.counters) (σ σ' : fs)
    (r : result (Normalize.counters * list (path * Normalize.message))) :
  Normalize.main_loop dry_run c walk σ = (σ', r) →
  changed_only_at (normalize_target walk) σ σ'.
Proof.
  revert c σ σ' r.
  assert (∀ dirpath all filenames c,
            (∀ x, x ∈ filenames → x ∈ all) →
            respects (changed_only_at (normalize_target [(dirpath, all)]))
              (Normalize.files_loop dry_run dirpath c filenames)) as Hfiles.
  { intros dirpath all filenames.
    induction filenames as [|[fname e] rest IH]; intros c Hsub;
      cbn [Normalize.files_loop].
    - apply (respects_ret (changed_only_at _)).
    - assert (∀ x, x ∈ rest → x ∈ all) as Hsub'
        by (intros x Hx; apply Hsub; by right).
      destruct (endswith fname ".parquet") eqn:Hend; cbn [negb]; [|by apply IH].
      apply (respects_bind (changed_only_at _)).
      + apply respects_normalize_file_at.
        exists dirpath, all, fname, e. split_and!; try done; [by left|].
        apply Hsub. by left.
      + intros [ch msg]. apply (respects_bind (changed_only_at _)); [by apply IH|].
        intros [c' lines]. apply (respects_ret (changed_only_at _)). }
  assert (∀ c, respects (changed_only_at (normalize_target walk))
                 (Normalize.main_loop dry_run c walk)) as Hall.
  { induction walk as [|[dirpath filenames] rest IH]; intros c;
      cbn [Normalize.main_loop].
    - apply (respects_ret (changed_only_at _)).
    - apply (respects_bind (changed_only_at _)).
      + eapply respects_mono; [|by apply (Hfiles dirpath filenames filenames c)].
        intros q (d & fs0 & fname & e & Hin & Hf & Hend & ->).
        apply list_elem_of_singleton in Hin as [= -> ->].
        exists dirpath, filenames, fname, e. split_and!; try done. by left.
      + intros [c' lines]. apply (respects_bind (changed_only_at _)).
        * eapply respects_mono; [|apply IH].
          intros q (d & fs0 & fname & e & Hin & Hf & Hend & ->).
          exists d, fs0, fname, e. split_and!; try done. by right.
        * intros [c'' lines']. apply (respects_ret (changed_only_at _)). }
  intros c σ σ' r Hrun. by apply (Hall c σ σ' r).
Qed.

Lemma X18_witness :
  let f := SampleFiles.file_with
             (Some (SampleFiles.blob (Sample.document Sample.feats_a_b_fixed)))
             (Some (SampleFiles.blob (Sample.document Sample.feats_a_b))) in
  let σ := SampleFiles.disk f in
  let walk := [(SampleFiles.root, [("notes.txt"%string, SampleFiles.calm);
                                   ("shard.parquet"%string, SampleFiles.torn)])] in
  let c := {| Normalize.total := 0; Normalize.changed := 0; Normalize.skipped := 0 |} in
  let run := @Normalize.main_loop SampleFiles.loads false c walk σ in
  changed_only_at (normalize_target walk) σ run.1.
Proof.
  intros f σ walk c run.
  exact (@X18_Normalize_run_footprint SampleFiles.loads false walk c σ run.1 run.2
           (surjective_pairing run)).
Defined.

(** ** The conversion script reads the file-level slot only *)

(** X19: the conversion script reads the file-level slot only: in
    place, a Parquet file whose file-level blob is missing, empty or
    unparsable, or in which no entry is rewritten, is left as it is and
    nothing is printed for it, whatever the schema-level slot holds. *)
Theorem X19_Convert_leaves_untagged_files `{JsonLoads} (a : Convert.args)
    (root p rel : path) (c : Convert.counters) (e : env) (σ : fs) (f : parquet_file) :
  σ !! p = Some (Parquet f) →
  relative_to p root = Ok rel →
  has_parquet_suffix p = true →
  Convert.out_root a = None →
  (blob_truthy (file_blob f) = false
   ∨ (∃ b, file_blob f = Some b
           ∧ (json_loads b = None
              ∨ ∃ hf updated, json_loads b = Some hf
                  ∧ Convert.convert_list_to_sequence hf = Ok (updated, 0)))) →
  ∃ c', Convert.body a root c p false e σ = (σ, Ok (c', None)).
Proof.
  intros Hp Hrel Hsuf Hout Hcase.
  unfold Convert.body, Convert.copy_through. io_unfold.
  rewrite Hrel, Hsuf, Hout.
  destruct (match Convert.limit a with Some l => _ | None => false end);
    [by eexists|].
  rewrite (Convert_load_hf_metadata_eq p σ f Hp).
  destruct Hcase as [Hf|(b & Hb & Hcase)].
  - rewrite Hf. cbn [is_None]. by eexists.
  - rewrite Hb. destruct (blob_truthy (Some b)); [|cbn [is_None]; by eexists].
    cbn [from_option id].
    destruct Hcase as [Hl|(hf & updated & Hl & Hconv)]; rewrite Hl; cbn [from_option id].
    + cbn [is_None]. by eexists.
    + destruct (is_None hf); [by eexists|]. rewrite Hconv.
      rewrite bool_decide_eq_true_2 by done. by eexists.
Qed.

Lemma X19_witness :
  let f := SampleFiles.file_with None
             (Some (SampleFiles.blob (Sample.document Sample.feats_a_b))) in
  let σ := SampleFiles.disk f in
  ∃ c', @Convert.body SampleFiles.loads SampleFiles.convert_in_place SampleFiles.root
          SampleFiles.convert_zero SampleFiles.shard false SampleFiles.calm σ
        = (σ, Ok (c', None)).
Proof.
  intros f σ.
  refine (@X19_Convert_leaves_untagged_files SampleFiles.loads SampleFiles.convert_in_place
            SampleFiles.root SampleFiles.shard ["shard.parquet"%string]
            SampleFiles.convert_zero SampleFiles.calm σ f (disk_lookup_shard f)
            eq_refl _ eq_refl (or_introl _));
    vm_compute; reflexivity.
Defined.

(** ** Which files count as Parquet files *)

Lemma substring_whole (s : string) : String.substring 0 (String.length s) s = s.
Proof. induction s as [|a s IH]; [done|]. cbn. by rewrite IH. Qed.

Lemma eqb_length (s t : string) :
  String.eqb s t = true → String.length s = String.length t.
Proof. intros E%String.eqb_eq. by subst. Qed.

(** X20: the two tests for a Parquet file differ on one name only: the
    normalising script's [fname.endswith(".parquet")] holds exactly when
    the other scripts' [path.suffix == ".parquet"] does, or the name is
    [.parquet] itself. *)
Theorem X20_parquet_suffix_or_endswith (p : path) :
  endswith (name p) ".parquet"
  = has_parquet_suffix p || String.eqb (name p) ".parquet".
Proof.
  unfold endswith, has_parquet_suffix. cbn [String.length].
  set (s := name p). set (n := String.length s).
  destruct (decide (n < 8)) as [Hlt|Hge].
  - rewrite (proj2 (Nat.leb_gt 8 n)), (proj2 (Nat.ltb_ge 8 n)) by lia. cbn.
    destruct (String.eqb s ".parquet") eqn:E; [|done].
    apply eqb_length in E. cbn in E. fold n in E. lia.
  - destruct (decide (n = 8)) as [H8|Hne].
    + rewrite (proj2 (Nat.leb_le 8 n)), (proj2 (Nat.ltb_ge 8 n)) by lia. cbn [andb orb].
      rewrite H8. cbn [Nat.sub]. rewrite <- H8. unfold n. by rewrite substring_whole.
    + rewrite (proj2 (Nat.leb_le 8 n)), (proj2 (Nat.ltb_lt 8 n)) by lia. cbn [andb].
      destruct (String.eqb s ".parquet") eqn:E; [|by rewrite orb_false_r].
      apply eqb_length in E. cbn in E. fold n in E. lia.
Qed.

(** ** A failing entry *)

(** X21: an exception in the loop body ends the run at once, in both
    scripts: the run raises that exception, leaves the file system as the
    failing entry left it, and the entries after it are not processed. *)
Theorem X21_run_ends_at_first_exception `{JsonLoads} (root : path)
    (before after : list (path * bool * env)) (p : path) (is_dir : bool) (e : env)
    (σ σ1 σ2 : fs) (ex : exn) :
  (∀ a c c1 lines,
     Fix.main_loop a root c before σ = (σ1, Ok (c1, lines)) →
     Fix.body a root c1 p is_dir e σ1 = (σ2, Raise ex) →
     Fix.main_loop a root c (before ++ (p, is_dir, e) :: after) σ = (σ2, Raise ex))
  ∧ (∀ a c c1 lines,
       Convert.main_loop a root c before σ = (σ1, Ok (c1, lines)) →
       Convert.body a root c1 p is_dir e σ1 = (σ2, Raise ex) →
       Convert.main_loop a root c (before ++ (p, is_dir, e) :: after) σ
       = (σ2, Raise ex)).
Proof.
  split; intros a; revert σ; induction before as [|[[p0 d0] e0] before IH];
    intros σ c c1 lines Hbefore Hbody.
  - cbn in Hbefore. injection Hbefore as -> -> _.
    cbn [app Fix.main_loop]. io_unfold. by rewrite Hbody.
  - cbn [app Fix.main_loop] in *. io_unfold.
    destruct (Fix.body a root c p0 d0 e0 σ) as [σa [[ca line]|exa]]; [|discriminate].
    destruct (Fix.main_loop a root ca before σa) as [σb [[cb linesb]|exb]] eqn:Hm;
      [|discriminate].
    injection Hbefore as -> -> _.
    by rewrite (IH σa ca c1 linesb Hm Hbody).
  - cbn in Hbefore. injection Hbefore as -> -> _.
    cbn [app Convert.main_loop]. io_unfold. by rewrite Hbody.
  - cbn [app Convert.main_loop] in *. io_unfold.
    destruct (Convert.body a root c p0 d0 e0 σ) as [σa [[ca line]|exa]]; [|discriminate].
    destruct (Convert.main_loop a root ca before σa) as [σb [[cb linesb]|exb]] eqn:Hm;
      [|discriminate].
    injection Hbefore as -> -> _.
    by rewrite (IH σa ca c1 linesb Hm Hbody).
Qed.

Lemma X21_witness :
  let f := SampleFiles.file_with None
             (Some (SampleFiles.blob (Sample.document Sample.feats_a_b))) in
  let σ := SampleFiles.disk f in
  let a := SampleFiles.in_place Fix.prefer_auto in
  let missing := ["data"; "set"; "missing.parquet"]%string in
  @Fix.main_loop SampleFiles.loads a SampleFiles.root SampleFiles.zero
    ([(SampleFiles.root, true, SampleFiles.calm)]
     ++ (missing, false, SampleFiles.calm) :: [(SampleFiles.shard, false, SampleFiles.calm)])
    σ
  = (σ, Raise OSError).
Proof.
  intros f σ a missing.
  refine (proj1 (@X21_run_ends_at_first_exception SampleFiles.loads SampleFiles.root
                   [(SampleFiles.root, true, SampleFiles.calm)]
                   [(SampleFiles.shard, false, SampleFiles.calm)]
                   missing false SampleFiles.calm σ σ σ OSError)
            a SampleFiles.zero
            {| Fix.seen_parquet := 0; Fix.affected_parquet := 0;
               Fix.changed_entries := 0; Fix.copied_other := 0;
               Fix.total_parquet := 0 |} [] _ _).
  - reflexivity.
  - unfold Fix.body, Fix.read_hf_metadata, read_metadata, open_parquet. io_unfold.
    assert (σ !! missing = None) as Hm.
    { unfold σ, SampleFiles.disk.
      rewrite lookup_insert_ne by discriminate.
      rewrite lookup_insert_ne by discriminate.
      apply lookup_singleton_ne. discriminate. }
    cbn. by rewrite Hm.
Defined.

(** ** Mirroring with the one-pass script *)

(** X22: mirroring with [--apply], when the loop body returns for a
    Parquet file with a usable document, the destination holds a Parquet
    file with the rows of the source and the serialised document in both
    slots, and the line printed is the [write] one: the file is written
    also when both slots of the source already hold that blob, and
    [affected_parquet] grows only when they did not. *)
Theorem X22_Fix_mirror_writes_every_usable_file `{JsonLoads} (a : Fix.args)
    (root o p rel : path) (c c' : Fix.counters) (e : env) (σ σ' : fs)
    (f : parquet_file) (updated_json : json) (n_changes : nat)
    (changed_names : list str) (target_bytes : bytes) (line : option Fix.report) :
  let hf_meta := Fix.select_source (file_blob f) (schema_blob f) in
  Fix.out_root a = Some o →
  Fix.apply a = true →
  relative_to p root = Ok rel →
  has_parquet_suffix p = true →
  under_limit a c →
  σ !! p = Some (Parquet f) →
  Fix.hf_source hf_meta ≠ Fix.source_none →
  is_None (Fix.hf_json hf_meta) = false →
  Fix.convert_list_to_sequence (Fix.choose_json (Fix.prefer a) hf_meta)
  = Ok (Fix.Tuple3 updated_json n_changes changed_names) →
  dumps_utf8 updated_json = Ok target_bytes →
  Fix.body a root c p false e σ = (σ', Ok (c', line)) →
  c' = counted (Fix.needs_write hf_meta target_bytes) n_changes (seen c)
  ∧ ∃ g,
      σ' !! (o ++ rel) = Some (Parquet g)
      ∧ rows g = rows f
      ∧ file_blob g = Some target_bytes
      ∧ schema_blob g = Some target_bytes
      ∧ line = Some (Fix.applied_write (o ++ rel) n_changes changed_names).
Proof.
  intros hf_meta Hout Happly Hrel Hsuf Hlim Hp Hsrc Hjson Hconv Hdumps Hrun.
  unfold Fix.body in Hrun. io_unfold. rewrite Hrel, Hsuf in Hrun. cbn [negb] in Hrun.
  assert (match Fix.limit a with
          | Some l => bool_decide (l ≤ Z.of_nat (Fix.seen_parquet c))%Z
          | None => false
          end = false) as Hl.
  { destruct (Fix.limit a) as [l|] eqn:El; [|done].
    apply bool_decide_eq_false. specialize (Hlim l El). lia. }
  cbn [Fix.seen_parquet] in Hrun. rewrite Hl in Hrun.
  rewrite (Fix_read_hf_metadata_eq p σ f Hp) in Hrun.
  fold (file_blob f) (schema_blob f) in Hrun. fold hf_meta in Hrun.
  assert (match Fix.hf_source hf_meta with
          | Fix.source_none => true
          | _ => is_None (Fix.hf_json hf_meta)
          end = false) as Hu by (destruct (Fix.hf_source hf_meta); done).
  rewrite Hu, Hconv in Hrun. cbn [Fix.unpack3] in Hrun.
  rewrite Hdumps, Hout, Happly in Hrun.
  cbn [Fix.is_Some_path negb fmap option_fmap option_map] in Hrun.
  rewrite andb_false_r in Hrun.
  destruct (Fix.write_with_hf_metadata e p (Some (o ++ rel)) updated_json σ)
    as [σw [[]|exw]] eqn:Hw; [|discriminate].
  injection Hrun as <- <- <-.
  destruct (Fix_write_preserves_other_keys e p (Some (o ++ rel)) updated_json f σ σw Hp Hw)
    as (blob & Hblob & Htarget & Hslot & _).
  rewrite Hdumps in Hblob. injection Hblob as <-.
  split; [done|]. eexists. split; [exact Htarget|]. by split_and!.
Qed.

Lemma X22_witness :
  let blob := SampleFiles.blob (Sample.document Sample.feats_a_b_fixed) in
  let f := SampleFiles.file_with (Some blob) (Some blob) in
  let σ := SampleFiles.disk f in
  let o := ["mirror"; "set"]%string in
  let rel := ["shard.parquet"%string] in
  let hf_meta := @Fix.select_source SampleFiles.loads (file_blob f) (schema_blob f) in
  let run := @Fix.body SampleFiles.loads SampleFiles.mirror SampleFiles.root
               SampleFiles.zero SampleFiles.shard false SampleFiles.calm σ in
  Fix.needs_write hf_meta blob = false
  ∧ counted false 0 (seen SampleFiles.zero)
    = counted (Fix.needs_write hf_meta blob) 0 (seen SampleFiles.zero)
  ∧ ∃ g,
      run.1 !! (o ++ rel) = Some (Parquet g)
      ∧ rows g = rows f
      ∧ file_blob g = Some blob
      ∧ schema_blob g = Some blob
      ∧ Some (Fix.applied_write (o ++ rel) 0 [])
        = Some (Fix.applied_write (o ++ rel) 0 []).
Proof.
  intros blob f σ o rel hf_meta run.
  split; [vm_compute; reflexivity|].
  assert (run = (run.1, Ok (counted false 0 (seen SampleFiles.zero),
                            Some (Fix.applied_write (o ++ rel) 0 [])))) as Hrun
    by (apply (run_result run); vm_compute; reflexivity).
  refine (@X22_Fix_mirror_writes_every_usable_file SampleFiles.loads SampleFiles.mirror
            SampleFiles.root o SampleFiles.shard rel SampleFiles.zero
            (counted false 0 (seen SampleFiles.zero)) SampleFiles.calm σ run.1 f
            (Sample.document Sample.feats_a_b_fixed) 0 [] blob
            (Some (Fix.applied_write (o ++ rel) 0 []))
            _ _ _ _ _ (disk_lookup_shard f) _ _ _ _ Hrun);
    vm_compute; (reflexivity || discriminate).
Defined.
